(** * Report pipeline of tlsassistant (modules/report.py)

    A shallow embedding of the data transformations performed by
    [Report.run] and its private helpers: result extraction, compliance
    flattening, the raw/finding split and the two view formatters.

    Python dictionaries are insertion-ordered; iteration order decides
    which host or which mitigation "wins", so a dictionary is an
    association list kept in insertion order.  Exceptions are explicit:
    every operation that can raise returns a [result]. *)

From Stdlib Require Import String Ascii List ZArith Bool Lia.
Import ListNotations.
Open Scope string_scope.
Open Scope list_scope.

Set Implicit Arguments.

(** ** Python values *)

Unset Elimination Schemes.
Inductive value : Type :=
| VNone
| VBool (b : bool)
| VInt (z : Z)
| VStr (s : string)
| VList (l : list value)
| VDict (d : list (string * value)).
Set Elimination Schemes.

(** Induction principle that reaches below lists and dictionaries. *)
Section ValueInd.
Variable P : value -> Prop.
Hypothesis HNone : P VNone.
Hypothesis HBool : forall b, P (VBool b).
Hypothesis HInt : forall z, P (VInt z).
Hypothesis HStr : forall s, P (VStr s).
Hypothesis HList : forall l, Forall P l -> P (VList l).
Hypothesis HDict : forall d, Forall (fun kv => P (snd kv)) d -> P (VDict d).

Fixpoint value_ind (v : value) : P v :=
  match v with
  | VNone => HNone
  | VBool b => HBool b
  | VInt z => HInt z
  | VStr s => HStr s
  | VList l =>
      HList ((fix go (l : list value) : Forall P l :=
                match l with
                | [] => Forall_nil P
                | x :: xs => Forall_cons x (value_ind x) (go xs)
                end) l)
  | VDict d =>
      HDict ((fix go (d : list (string * value))
               : Forall (fun kv => P (snd kv)) d :=
                match d with
                | [] => Forall_nil _
                | kv :: xs =>
                    @Forall_cons _ (fun kv => P (snd kv)) kv xs
                      (value_ind (snd kv)) (go xs)
                end) d)
  end.
End ValueInd.

(** Python truthiness: [bool(v)]. *)
Definition truthy (v : value) : bool :=
  match v with
  | VNone => false
  | VBool b => b
  | VInt z => negb (Z.eqb z 0)
  | VStr s => negb (String.eqb s "")
  | VList l => match l with [] => false | _ => true end
  | VDict d => match d with [] => false | _ => true end
  end.

(** ** Exceptions *)

Inductive exn : Type :=
| KeyError (k : string)
| AttributeError
| TypeError.

Inductive result (A : Type) : Type :=
| Ok (a : A)
| Raise (e : exn).
Arguments Ok {A} a.
Arguments Raise {A} e.

Definition bind {A B} (r : result A) (f : A -> result B) : result B :=
  match r with
  | Ok a => f a
  | Raise e => Raise e
  end.

Notation "x <- c ;; k" := (bind c (fun x => k))
  (at level 61, c at next level, right associativity).
Notation "' p <- c ;; k" := (bind c (fun p => k))
  (at level 61, p pattern, c at next level, right associativity).

(** ** Dictionaries in insertion order

    [dict V] is a Python [dict] with string keys: the entries in insertion
    order.  Python keeps keys pairwise distinct; [set] preserves that. *)

Module PyDict.
Section Ops.
Variable V : Type.

Definition t := list (string * V).

(** [d.get(k)] *)
Fixpoint get (k : string) (d : t) : option V :=
  match d with
  | [] => None
  | (k', v) :: d' => if String.eqb k k' then Some v else get k d'
  end.

(** [k in d] *)
Definition mem (k : string) (d : t) : bool :=
  match get k d with Some _ => true | None => false end.

(** [d[k]] *)
Definition getitem (k : string) (d : t) : result V :=
  match get k d with Some v => Ok v | None => Raise (KeyError k) end.

(** [d[k] = v]: an existing key keeps its position, a new key goes last. *)
Fixpoint set (k : string) (v : V) (d : t) : t :=
  match d with
  | [] => [(k, v)]
  | (k', v') :: d' =>
      if String.eqb k k' then (k', v) :: d' else (k', v') :: set k v d'
  end.

(** What a successful [del d[k]] leaves. *)
Fixpoint remove (k : string) (d : t) : t :=
  match d with
  | [] => []
  | (k', v') :: d' =>
      if String.eqb k k' then remove k d' else (k', v') :: remove k d'
  end.

(** [del d[k]] *)
Definition del (k : string) (d : t) : result t :=
  if mem k d then Ok (remove k d) else Raise (KeyError k).

(** [d.update(other)] *)
Definition update (d other : t) : t :=
  fold_left (fun acc kv => set (fst kv) (snd kv) acc) other d.

Definition keys (d : t) : list string := map fst d.

End Ops.
End PyDict.

Definition dict (V : Type) : Type := PyDict.t V.

(** [v.copy()]: dictionaries and lists have it; None, booleans, integers
    and strings do not. *)
Definition copy (v : value) : result value :=
  match v with
  | VDict _ | VList _ => Ok v
  | _ => Raise AttributeError
  end.

(** A value used where the code indexes or iterates a mapping.  The data
    model (spec section 3) has a mapping at each such place; any other
    value is reported as [TypeError] by the model. *)
Definition as_dict (v : value) : result (dict value) :=
  match v with
  | VDict d => Ok d
  | _ => Raise TypeError
  end.

(** ** requests.structures.CaseInsensitiveDict

    The library keeps [_store], an ordered dictionary from the lowered key
    to the pair (key as last written, value). *)

Module CaseInsensitiveDict.

(** [str.lower()] as it acts on ASCII strings: the letters A-Z are folded and
    nothing else changes.  Python folds further letters outside ASCII; the
    statements that depend on folding are stated for ASCII key names
    ([ascii_string] below), where the two agree. *)
Definition lower_ascii (c : ascii) : ascii :=
  let n := nat_of_ascii c in
  if (65 <=? n)%nat && (n <=? 90)%nat then ascii_of_nat (n + 32) else c.

Fixpoint lower (s : string) : string :=
  match s with
  | EmptyString => EmptyString
  | String c s' => String (lower_ascii c) (lower s')
  end.

Section Store.
Variable V : Type.

Definition t := dict (string * V).

(** [self[key] = value] *)
Definition setitem (key : string) (v : V) (s : t) : t :=
  PyDict.set (lower key) (key, v) s.

(** [self.get(key)] *)
Definition get (key : string) (s : t) : option V :=
  option_map snd (PyDict.get (lower key) s).

(** [CaseInsensitiveDict(data)] for a mapping [data]: [update] writes the
    entries one by one. *)
Definition of_dict (data : dict V) : t :=
  fold_left (fun s kv => setitem (fst kv) (snd kv) s) data [].

(** [self.lower_items()], which [__eq__] compares. *)
Definition lower_items (s : t) : dict V :=
  map (fun e => (fst e, snd (snd e))) s.

End Store.
End CaseInsensitiveDict.

Definition cidict (V : Type) : Type := CaseInsensitiveDict.t V.

(** ** Normalized views *)

(** What a view stores under a key.  [Pformat payload] stands for the text
    [pformat(payload, indent=2)] of the standard library, left
    uninterpreted. *)
Inductive field : Type :=
| Finding (v : value)
| Pformat (payload : value)
| Hosts (hs : list string).

(** An entry of the module-grouped view: the plain [{}] the formatter
    starts from, or the [CaseInsensitiveDict] that replaces it. *)
Inductive entry : Type :=
| Plain (d : dict field)
| CaseInsensitive (s : cidict field).

Definition entry_setitem (k : string) (f : field) (e : entry) : entry :=
  match e with
  | Plain d => Plain (PyDict.set k f d)
  | CaseInsensitive s => CaseInsensitive (CaseInsensitiveDict.setitem k f s)
  end.

(** [e.get(k)] *)
Definition entry_get (k : string) (e : entry) : option field :=
  match e with
  | Plain d => PyDict.get k d
  | CaseInsensitive s => CaseInsensitiveDict.get k s
  end.

(** [len(e)] *)
Definition entry_len (e : entry) : nat :=
  match e with
  | Plain d => length d
  | CaseInsensitive s => length s
  end.

(** [CaseInsensitiveDict(v)] for the value under "Entry".  A mapping is
    copied key by key and [None] gives the empty dictionary; the data model
    has a mapping here, other values are reported as [TypeError]. *)
Definition CaseInsensitiveDict_of (v : value) : result (cidict field) :=
  match v with
  | VDict d =>
      Ok (CaseInsensitiveDict.of_dict
            (map (fun kv => (fst kv, Finding (snd kv))) d))
  | VNone => Ok []
  | _ => Raise TypeError
  end.

(** ** Collaborators that are not part of the sources *)

(** Modelled from the spec: utils.validation.rec_search_key is imported by
    report.py but its source is missing.  Section 4.2: "produce a lazy
    sequence of all values found under that key name at any depth
    (pre-order traversal ... once a "mitigation" key is found in a subtree,
    its children are not scanned further ...) ... yields null/absent
    markers for branches with none -- callers must filter nulls".  A match
    yields the value and is not entered; a mapping, list or leaf below
    which nothing is found yields the marker [VNone]. *)
Fixpoint rec_search_key (key : string) (var : value) : list value :=
  match var with
  | VDict d =>
      match flat_map (fun kv => if String.eqb (fst kv) key then [snd kv]
                                else rec_search_key key (snd kv)) d with
      | [] => [VNone]
      | found => found
      end
  | VList l =>
      match flat_map (rec_search_key key) l with
      | [] => [VNone]
      | found => found
      end
  | _ => [VNone]
  end.

Definition is_empty_branch (v : value) : bool :=
  match v with
  | VDict [] | VList [] => true
  | _ => false
  end.

(** Modelled from the spec: utils.prune.pruner is imported by report.py but
    its source is missing.  Section 2: "removes empty branches from a
    results tree".  Branches are pruned bottom-up, and an entry whose
    pruned value is an empty mapping or an empty list is dropped. *)
Fixpoint pruner (v : value) : value :=
  match v with
  | VDict d =>
      VDict (filter (fun kv => negb (is_empty_branch (snd kv)))
               (map (fun kv => (fst kv, pruner (snd kv))) d))
  | VList l =>
      VList (filter (fun x => negb (is_empty_branch x)) (map pruner l))
  | _ => v
  end.

(** ** modules/report.py *)

Module Report.

Inductive Mode : Type := HOSTS | MODULES.

(** *** [__extract_results]

    The loop body for one host.  The tree is the caller's object and is
    changed in place, so the host's value as the body leaves it is returned
    also when the body raises; the catalogue is a local of the method.
    "loaded_modules" holds a mapping in the data model; a list there is
    reported as [TypeError]. *)
Definition extract_host (v : value) (modules : dict value)
  : value * result (dict value) :=
  match v with
  | VDict record =>
      match PyDict.get "loaded_modules" record with
      | Some lm =>
          match copy lm with
          | Ok (VDict loaded) =>
              let modules' := PyDict.update modules loaded in
              let record' := PyDict.remove "loaded_modules" record in
              match PyDict.get "results" record' with
              | Some r => (r, Ok modules')
              | None => (VDict record', Raise (KeyError "results"))
              end
          | Ok _ => (v, Raise TypeError)
          | Raise e => (v, Raise e)
          end
      | None => (v, Ok modules)
      end
  | _ => (v, Raise TypeError)
  end.

(** [for hostname in res]: the body only rebinds [res[hostname]], so the
    loop visits the entries in order and rewrites each in place. *)
Fixpoint extract_loop (res : dict value) (modules : dict value)
  : dict value * result (dict value) :=
  match res with
  | [] => ([], Ok modules)
  | (hostname, v) :: rest =>
      match extract_host v modules with
      | (v', Ok modules') =>
          let (rest', r) := extract_loop rest modules' in
          ((hostname, v') :: rest', r)
      | (v', Raise e) => ((hostname, v') :: rest, Raise e)
      end
  end.

Definition extract_results (res : dict value)
  : dict value * result (dict value) :=
  extract_loop res [].

(** *** Compliance flattening ([run], the block on "compare_one" and
    "compare_many") *)

Definition synthetic (module sheet : string) : string :=
  module ++ "_" ++ sheet.

(** [for sheet in results[hostname][module]] *)
Fixpoint flatten_sheets (module : string) (sheets : dict value)
  (record modules : dict value) : result (dict value * dict value) :=
  match sheets with
  | [] => Ok (record, modules)
  | (sheet, content) :: rest =>
      c <- as_dict content ;;
      if PyDict.mem "mitigation" c
      then flatten_sheets module rest
             (PyDict.set (synthetic module sheet) content record)
             (PyDict.set (synthetic module sheet) (VStr "") modules)
      else flatten_sheets module rest record modules
  end.

(** The body of [for hostname in results]. *)
Definition flatten_host (module : string) (v : value) (modules : dict value)
  : result (value * dict value) :=
  record <- as_dict v ;;
  '(record1, modules1) <-
    match PyDict.get module record with
    | Some sheets =>
        if truthy sheets
        then s <- as_dict sheets ;; flatten_sheets module s record modules
        else Ok (record, modules)
    | None => Ok (record, modules)
    end ;;
  record2 <- PyDict.del module record1 ;;
  Ok (VDict record2, modules1).

Fixpoint flatten_hosts (module : string) (results : dict value)
  (modules : dict value) : result (dict value * dict value) :=
  match results with
  | [] => Ok ([], modules)
  | (hostname, v) :: rest =>
      '(v', modules1) <- flatten_host module v modules ;;
      '(rest', modules2) <- flatten_hosts module rest modules1 ;;
      Ok ((hostname, v') :: rest', modules2)
  end.

Definition flatten_compliance (results modules : dict value)
  : result (dict value * dict value) :=
  if PyDict.mem "compare_one" modules || PyDict.mem "compare_many" modules
  then
    let module :=
      if PyDict.mem "compare_one" modules then "compare_one"
      else "compare_many" in
    '(results', modules1) <- flatten_hosts module results modules ;;
    modules2 <- PyDict.del module modules1 ;;
    Ok (results', modules2)
  else Ok (results, modules).

(** *** Raw/finding split ([run], "divide raw from mitigations") *)

Definition is_none (v : value) : bool :=
  match v with VNone => true | _ => false end.

Definition is_str (s : string) (v : value) : bool :=
  match v with VStr s' => String.eqb s s' | _ => false end.

(** [raw = r.copy()] followed by the guarded [del raw["mitigation"]]. *)
Definition raw_of (r : value) : result value :=
  match r with
  | VDict d =>
      Ok (VDict (if PyDict.mem "mitigation" d
                 then PyDict.remove "mitigation" d else d))
  | VList l =>
      if existsb (is_str "mitigation") l then Raise TypeError else Ok r
  | _ => Raise AttributeError
  end.

(** [for mitigation in rec_search_key(...)]: every value that is not None
    rebinds [results[hostname][module]] to its copy. *)
Fixpoint take_mitigations (found : list value) (current : value)
  : result value :=
  match found with
  | [] => Ok current
  | mitigation :: rest =>
      if is_none mitigation then take_mitigations rest current
      else c <- copy mitigation ;; take_mitigations rest c
  end.

Definition split_module (r : value) : result (dict value) :=
  raw <- raw_of r ;;
  current <- take_mitigations (rec_search_key "mitigation" r) r ;;
  c <- as_dict current ;;
  Ok (PyDict.set "raw" raw c).

Fixpoint split_modules (record : dict value) : result (dict (dict value)) :=
  match record with
  | [] => Ok []
  | (module, r) :: rest =>
      r' <- split_module r ;;
      rest' <- split_modules rest ;;
      Ok ((module, r') :: rest')
  end.

Fixpoint split_hosts (results : dict value)
  : result (dict (dict (dict value))) :=
  match results with
  | [] => Ok []
  | (hostname, v) :: rest =>
      record <- as_dict v ;;
      record' <- split_modules record ;;
      rest' <- split_hosts rest ;;
      Ok ((hostname, record') :: rest')
  end.

(** *** [__modules_report_formatter]

    The formatters receive the tree the split leaves, in which every
    module result is a mapping. *)

(** The state of the inner loop: [out], [raw_results] and [vuln_hosts]. *)
Definition module_state : Type :=
  (dict entry * dict value * list string)%type.

(** The body of [for hostname in results]. *)
Definition module_host_step (module hostname : string)
  (record : dict (dict value)) (st : module_state) : result module_state :=
  let '(out, raw_results, vuln_hosts) := st in
  match PyDict.get module record with
  | Some r =>
      raw_results' <-
        match PyDict.get "raw" r with
        | Some raw =>
            c <- copy raw ;; Ok (PyDict.set hostname c raw_results)
        | None => Ok raw_results
        end ;;
      out' <-
        match PyDict.get "Entry" r with
        | Some e =>
            c <- CaseInsensitiveDict_of e ;;
            Ok (PyDict.set module (CaseInsensitive c) out)
        | None => Ok out
        end ;;
      Ok (out', raw_results',
          if existsb (String.eqb hostname) vuln_hosts then vuln_hosts
          else vuln_hosts ++ [hostname])
  | None => Ok st
  end.

Fixpoint module_hosts_loop (module : string)
  (results : dict (dict (dict value))) (st : module_state)
  : result module_state :=
  match results with
  | [] => Ok st
  | (hostname, record) :: rest =>
      st' <- module_host_step module hostname record st ;;
      module_hosts_loop module rest st'
  end.

(** The body of [for module in modules]. *)
Definition module_step (results : dict (dict (dict value)))
  (module : string) (out : dict entry) : result (dict entry) :=
  let out0 :=
    if PyDict.mem module out then out
    else PyDict.set module (Plain []) out in
  '(out1, raw_results, vuln_hosts) <-
    module_hosts_loop module results (out0, [], []) ;;
  out2 <-
    match raw_results with
    | [] => Ok out1
    | _ =>
        e <- PyDict.getitem module out1 ;;
        Ok (PyDict.set module
              (entry_setitem "raw" (Pformat (VDict raw_results)) e) out1)
    end ;;
  out3 <-
    match vuln_hosts with
    | [] => Ok out2
    | _ =>
        e <- PyDict.getitem module out2 ;;
        Ok (PyDict.set module
              (entry_setitem "hosts" (Hosts vuln_hosts) e) out2)
    end ;;
  e <- PyDict.getitem module out3 ;;
  if Nat.eqb (entry_len e) 0 then PyDict.del module out3 else Ok out3.

Fixpoint modules_loop (results : dict (dict (dict value)))
  (modules : list string) (out : dict entry) : result (dict entry) :=
  match modules with
  | [] => Ok out
  | module :: rest =>
      out' <- module_step results module out ;;
      modules_loop results rest out'
  end.

Definition modules_report_formatter (results : dict (dict (dict value)))
  (modules : list string) : result (dict entry) :=
  modules_loop results modules [].

(** *** [__hosts_report_formatter] *)

(** The body of [for module in results[hostname]]; [e] is
    [out[hostname]]. *)
Definition host_module_step (module : string) (r : dict value)
  (e : dict (cidict field)) : result (dict (cidict field)) :=
  raw_results <-
    match PyDict.get "raw" r with
    | Some raw => copy raw
    | None => Ok (VDict [])
    end ;;
  match PyDict.get "Entry" r with
  | Some en =>
      c <- CaseInsensitiveDict_of en ;;
      Ok (PyDict.set module
            (if truthy raw_results
             then CaseInsensitiveDict.setitem "raw" (Pformat raw_results) c
             else c) e)
  | None => Ok e
  end.

Fixpoint host_modules_loop (record : dict (dict value))
  (e : dict (cidict field)) : result (dict (cidict field)) :=
  match record with
  | [] => Ok e
  | (module, r) :: rest =>
      e' <- host_module_step module r e ;;
      host_modules_loop rest e'
  end.

(** The body of [for hostname in results]. *)
Definition host_step (hostname : string) (record : dict (dict value))
  (out : dict (dict (cidict field))) : result (dict (dict (cidict field))) :=
  let out0 :=
    if PyDict.mem hostname out then out else PyDict.set hostname [] out in
  e <- PyDict.getitem hostname out0 ;;
  e' <- host_modules_loop record e ;;
  Ok (PyDict.set hostname e' out0).

Fixpoint hosts_loop (results : dict (dict (dict value)))
  (out : dict (dict (cidict field))) : result (dict (dict (cidict field))) :=
  match results with
  | [] => Ok out
  | (hostname, record) :: rest =>
      out' <- host_step hostname record out ;;
      hosts_loop rest out'
  end.

Definition hosts_report_formatter (results : dict (dict (dict value)))
  : result (dict (dict (cidict field))) :=
  hosts_loop results [].

(** *** [run], up to the view handed to the template *)

Inductive view : Type :=
| ModulesView (out : dict entry)
| HostsView (out : dict (dict (cidict field))).

(** extract, prune, flatten, split: the tree and the catalogue that
    [__jinja2__report] receives. *)
Definition prepare (input : dict value)
  : result (dict (dict (dict value)) * dict value) :=
  let (res, r) := extract_results input in
  modules <- r ;;
  results <- as_dict (pruner (VDict res)) ;;
  '(results1, modules1) <- flatten_compliance results modules ;;
  results2 <- split_hosts results1 ;;
  Ok (results2, modules1).

Definition run (mode : Mode) (input : dict value) : result view :=
  '(results, modules) <- prepare input ;;
  match mode with
  | MODULES =>
      out <- modules_report_formatter results (PyDict.keys modules) ;;
      Ok (ModulesView out)
  | HOSTS =>
      out <- hosts_report_formatter results ;;
      Ok (HostsView out)
  end.

End Report.


(** * Vocabulary of the statements *)

(** The mapping a host value carries under "loaded_modules", if any. *)
Definition loaded_modules_of (v : value) : option (dict value) :=
  match v with
  | VDict record =>
      match PyDict.get "loaded_modules" record with
      | Some (VDict loaded) => Some loaded
      | _ => None
      end
  | _ => None
  end.

(** Host value [v] declares module [k] in its "loaded_modules". *)
Definition declares (k : string) (v : value) : bool :=
  match loaded_modules_of v with
  | Some loaded => PyDict.mem k loaded
  | None => false
  end.

(** A host value that extraction accepts and whose unwrapped record has no
    "loaded_modules" key of its own: either a record without the envelope
    key, or an envelope whose "results" is a mapping free of that key. *)
Definition unwraps_clean (v : value) : bool :=
  match v with
  | VDict record =>
      match PyDict.get "loaded_modules" record with
      | Some (VDict _) =>
          match PyDict.get "results" record with
          | Some (VDict r) => negb (PyDict.mem "loaded_modules" r)
          | _ => false
          end
      | Some _ => false
      | None => true
      end
  | _ => false
  end.

(** Two hosts declaring the same module with different metadata. *)
Definition two_hosts_one_module : dict value :=
  [("h1", VDict [("loaded_modules", VDict [("m", VInt 1)]);
                 ("results", VDict [])]);
   ("h2", VDict [("loaded_modules", VDict [("m", VInt 2)]);
                 ("results", VDict [])])].

(** A host whose "results" mapping has a "loaded_modules" key of its own. *)
Definition nested_envelope : dict value :=
  [("h", VDict [("loaded_modules", VDict []);
                ("results",
                 VDict [("loaded_modules", VDict [("x", VStr "")]);
                        ("results", VDict [])])])].

(** The compliance module that [run] flattens, if the catalogue has one:
    "compare_one" is preferred over "compare_many". *)
Definition selected_compliance_module (modules : dict value)
  : option string :=
  if PyDict.mem "compare_one" modules then Some "compare_one"
  else if PyDict.mem "compare_many" modules then Some "compare_many"
  else None.

Definition is_mapping (v : value) : bool :=
  match v with VDict _ => true | _ => false end.

(** The sheet has a top-level "mitigation" key. *)
Definition has_mitigation (content : value) : bool :=
  match content with
  | VDict c => PyDict.mem "mitigation" c
  | _ => false
  end.

(** The M sheets, out of N, that contain a mitigation. *)
Definition mitigated (sheets : dict value) : dict value :=
  filter (fun sv => has_mitigation (snd sv)) sheets.

(** The synthetic modules of a compliance module: one per mitigated sheet,
    named <compliance-id>_<sheet-id> and holding the sheet. *)
Definition synthetic_modules (module : string) (sheets : dict value)
  : dict value :=
  map (fun sv => (Report.synthetic module (fst sv), snd sv))
    (mitigated sheets).

(** Host value [v] is a record whose compliance module [cid] holds sheets
    that are mappings under pairwise distinct sheet identifiers. *)
Definition has_sheets (cid : string) (v : value) : Prop :=
  exists record sheets,
    v = VDict record /\
    PyDict.get cid record = Some (VDict sheets) /\
    NoDup (PyDict.keys sheets) /\
    Forall (fun sv => is_mapping (snd sv) = true) sheets.

(** Host value [v'] is [v] flattened: the compliance module is gone, each
    of the M mitigated sheets is reachable under its synthetic name, the M
    names are pairwise distinct, and every other key is as before. *)
Definition flattened (cid : string) (v v' : value) : Prop :=
  exists record sheets record',
    v = VDict record /\
    PyDict.get cid record = Some (VDict sheets) /\
    v' = VDict record' /\
    PyDict.get cid record' = None /\
    length (synthetic_modules cid sheets) = length (mitigated sheets) /\
    length (mitigated sheets) <= length sheets /\
    NoDup (PyDict.keys (synthetic_modules cid sheets)) /\
    forall k, k <> cid ->
      PyDict.get k record' =
      match PyDict.get k (synthetic_modules cid sheets) with
      | Some content => Some content
      | None => PyDict.get k record
      end.

(** Host [hv] contributes the synthetic module name [k]. *)
Definition registers (cid k : string) (hv : string * value) : Prop :=
  exists record sheets,
    snd hv = VDict record /\
    PyDict.get cid record = Some (VDict sheets) /\
    In k (PyDict.keys (synthetic_modules cid sheets)).

(** The scenario of the compliance module "compare_one" with a mitigated
    sheet "s1" and an unmitigated sheet "s2". *)
Definition compare_one_sheets : dict value :=
  [("s1", VDict [("mitigation", VDict [("x", VInt 1)])]);
   ("s2", VDict [("no_mitigation_here", VInt 2)])].

Definition compare_one_tree : dict value :=
  [("h1", VDict [("compare_one", VDict compare_one_sheets)])].

(** A host that ran "m1" only, while the catalogue also lists the
    compliance module "compare_one". *)
Definition compliance_absent_on_host : dict value :=
  [("h1", VDict [("loaded_modules",
                  VDict [("compare_one", VDict []); ("m1", VDict [])]);
                 ("results", VDict [("m1", VDict [("x", VInt 1)])])])].

(** Some mapping inside [v], at any depth below mappings and lists, has
    the key [key]. *)
Fixpoint has_key_deep (key : string) (v : value) : bool :=
  match v with
  | VDict d =>
      existsb (fun kv => String.eqb (fst kv) key
                         || has_key_deep key (snd kv)) d
  | VList l => existsb (has_key_deep key) l
  | _ => false
  end.

(** A module result without any mitigation. *)
Definition result_without_mitigation : dict value := [("other", VInt 1)].

(** Shapes the formatters accept: a "raw" payload that has [copy], an
    "Entry" that is a mapping or None. *)
Definition copyable (v : value) : bool :=
  match v with VDict _ | VList _ => true | _ => false end.

Definition entry_shaped (v : value) : bool :=
  match v with VDict _ | VNone => true | _ => false end.

Definition renderable_result (r : dict value) : bool :=
  match PyDict.get "raw" r with Some raw => copyable raw | None => true end
  && match PyDict.get "Entry" r with
     | Some e => entry_shaped e
     | None => true
     end.

Definition renderable_record (record : dict (dict value)) : bool :=
  forallb (fun mr => renderable_result (snd mr)) record.

Definition renderable (results : dict (dict (dict value))) : bool :=
  forallb (fun hr => renderable_record (snd hr)) results.

(** Two hosts: one whose only module has a "raw" payload and no "Entry",
    one with an "Entry". *)
Definition raw_only_and_entry : dict (dict (dict value)) :=
  [("h1", [("m1", [("raw", VDict [("banner", VStr "x")])])]);
   ("h2", [("m1", [("Entry", VDict [("Name", VStr "n")]);
                   ("raw", VDict [("banner", VStr "y")])])])].

(** Host entry [hr] has results for module [m]. *)
Definition contains (m : string) (hr : string * dict (dict value)) : bool :=
  PyDict.mem m (snd hr).

(** The case-insensitive dictionary built from the "Entry" of the last
    host, in iteration order, whose result for [m] has one. *)
Fixpoint last_entry (m : string) (results : dict (dict (dict value)))
  : option (cidict field) :=
  match results with
  | [] => None
  | (_, record) :: rest =>
      match last_entry m rest with
      | Some c => Some c
      | None =>
          match PyDict.get m record with
          | Some r =>
              match PyDict.get "Entry" r with
              | Some e =>
                  match CaseInsensitiveDict_of e with
                  | Ok c => Some c
                  | Raise _ => None
                  end
              | None => None
              end
          | None => None
          end
      end
  end.

(** The value of the last entry of [d] whose key equals [k] up to case. *)
Fixpoint last_ci (V : Type) (k : string) (d : dict V) : option V :=
  match d with
  | [] => None
  | (k', v) :: d' =>
      match last_ci k d' with
      | Some v' => Some v'
      | None =>
          if String.eqb (CaseInsensitiveDict.lower k')
               (CaseInsensitiveDict.lower k)
          then Some v else None
      end
  end.

(** Every module result of the tree has a "raw" key. *)
Definition all_have_raw (results : dict (dict (dict value))) : Prop :=
  forall h record m r,
    In (h, record) results -> In (m, r) record -> PyDict.get "raw" r <> None.

(** What the formatter leaves under a module [m] that some host contains:
    the hosts containing [m] under "hosts"; a "raw" text when every module
    result has a "raw"; and, when some host has an "Entry" for [m], a
    case-insensitive entry whose finding fields are those of the last such
    "Entry". *)
Definition module_entry_spec (results : dict (dict (dict value)))
  (m : string) (e : entry) : Prop :=
  exists hs,
    entry_get "hosts" e = Some (Hosts hs) /\
    hs <> [] /\
    (forall h, In h hs <->
               exists record, In (h, record) results /\
                              PyDict.mem m record = true) /\
    (all_have_raw results ->
     exists raws,
       entry_get "raw" e = Some (Pformat (VDict raws)) /\ raws <> []) /\
    (forall c, last_entry m results = Some c ->
       exists s,
         e = CaseInsensitive s /\ NoDup (PyDict.keys s) /\
         forall k,
           CaseInsensitiveDict.lower k <> "raw" ->
           CaseInsensitiveDict.lower k <> "hosts" ->
           CaseInsensitiveDict.get k s = CaseInsensitiveDict.get k c).

(** Two hosts with different "Entry" fields for module "m". *)
Definition two_entries : dict (dict (dict value)) :=
  [("h1", [("m", [("Entry", VDict [("a", VInt 1)])])]);
   ("h2", [("m", [("Entry", VDict [("b", VInt 2)])])])].

(** The input of the scenario of C1. *)
Definition scenario_input : dict value :=
  [("h1", VDict [("loaded_modules", VDict [("m1", VDict [])]);
                 ("results",
                  VDict [("m1", VDict [("mitigation",
                                        VDict [("risk", VStr "high")]);
                                       ("other", VInt 1)])])])].

(** The entry that C1 expects under "m1". *)
Definition scenario_expected : dict field :=
  [("risk", Finding (VStr "high"));
   ("raw", Pformat (VDict [("h1", VDict [("other", VInt 1)])]));
   ("hosts", Hosts ["h1"])].

(** The same scenario with the mitigation's fields under "Entry". *)
Definition scenario_input_with_entry : dict value :=
  [("h1", VDict [("loaded_modules", VDict [("m1", VDict [])]);
                 ("results",
                  VDict [("m1",
                          VDict [("mitigation",
                                  VDict [("Entry",
                                          VDict [("risk", VStr "high")])]);
                                 ("other", VInt 1)])])])].

(** [e == d] for an entry of the view and a plain dictionary, as Python
    decides it: the same keys with the same values, compared with lowered
    keys when the entry is case-insensitive. *)
Definition entry_eq_dict (e : entry) (d : dict field) : Prop :=
  match e with
  | Plain p => forall k, PyDict.get k p = PyDict.get k d
  | CaseInsensitive s =>
      forall k,
        PyDict.get k (CaseInsensitiveDict.lower_items s) =
        PyDict.get k (CaseInsensitiveDict.lower_items
                        (CaseInsensitiveDict.of_dict d))
  end.

(** * Vocabulary of the further properties *)

(** What a successful extraction leaves in place of a host value: the
    value under "results" for an envelope, the value itself otherwise. *)
Definition unwrapped (v : value) : value :=
  match v with
  | VDict record =>
      match PyDict.get "loaded_modules" record with
      | Some _ =>
          match PyDict.get "results" record with
          | Some r => r
          | None => v
          end
      | None => v
      end
  | _ => v
  end.

(** A host record without the envelope key. *)
Definition plain_record (v : value) : Prop :=
  exists record,
    v = VDict record /\ PyDict.get "loaded_modules" record = None.

(** Host value [v] has a falsy value (None, False, 0, "", [] or {}) under
    the compliance module [cid]. *)
Definition has_falsy (cid : string) (v : value) : Prop :=
  exists record x,
    v = VDict record /\ PyDict.get cid record = Some x /\ truthy x = false.

(** The host value without the key [cid]. *)
Definition without_key (cid : string) (v : value) : value :=
  match v with
  | VDict record => VDict (PyDict.remove cid record)
  | _ => v
  end.

(** A value the mitigation loop can take: None is skipped, a mapping or a
    list is copied. *)
Definition marker_or_copyable (v : value) : bool :=
  Report.is_none v || copyable v.

(** The hosts whose record has module [m], in iteration order. *)
Definition hosts_containing (m : string) (results : dict (dict (dict value)))
  : list string :=
  PyDict.keys (filter (contains m) results).

(** The "raw" payloads of module [m], host by host, in iteration order. *)
Definition raw_payloads (m : string) (results : dict (dict (dict value)))
  : dict value :=
  flat_map (fun hr =>
              match PyDict.get m (snd hr) with
              | Some r =>
                  match PyDict.get "raw" r with
                  | Some raw => [(fst hr, raw)]
                  | None => []
                  end
              | None => []
              end) results.

(** [if hostname not in vuln_hosts: vuln_hosts.append(hostname)] *)
Definition append_if_absent (hosts : list string) (h : string)
  : list string :=
  if existsb (String.eqb h) hosts then hosts else hosts ++ [h].

(** The "raw" payload of a module result as the host-grouped formatter
    holds it: the payload, or the empty mapping it starts from. *)
Definition raw_or_empty (r : dict value) : value :=
  match PyDict.get "raw" r with
  | Some raw => raw
  | None => VDict []
  end.

(** A boolean, a number or a string. *)
Definition scalar (v : value) : bool :=
  match v with
  | VBool _ | VInt _ | VStr _ => true
  | _ => false
  end.

(** ** Key names *)

(** A character below 128. *)
Definition ascii_char (c : ascii) : bool := (nat_of_ascii c <? 128)%nat.

(** A string of ASCII characters only: on such a string [str.lower()] is
    [CaseInsensitiveDict.lower]. *)
Fixpoint ascii_string (s : string) : bool :=
  match s with
  | EmptyString => true
  | String c s' => ascii_char c && ascii_string s'
  end.

(** Every key of the mapping is an ASCII string. *)
Definition ascii_keys (V : Type) (d : dict V) : bool :=
  forallb (fun kv => ascii_string (fst kv)) d.

(** Every field of the store is kept under the lowered form of its name. *)
Definition stored_under_lowered (V : Type) (s : cidict V) : Prop :=
  Forall (fun e => fst e = CaseInsensitiveDict.lower (fst (snd e))) s.

(** No two fields of the store have names that differ only in case. *)
Definition case_distinct (V : Type) (s : cidict V) : Prop :=
  forall e1 e2,
    In e1 s -> In e2 s ->
    CaseInsensitiveDict.lower (fst (snd e1)) =
    CaseInsensitiveDict.lower (fst (snd e2)) ->
    e1 = e2.

Definition entry_stored_under_lowered (e : entry) : Prop :=
  match e with
  | Plain _ => True
  | CaseInsensitive s => stored_under_lowered s
  end.

Definition view_stored_under_lowered (out : dict entry) : Prop :=
  Forall (fun me => entry_stored_under_lowered (snd me)) out.

(** An input of [run]: two hosts whose mitigation for module "m" carries
    different "Entry" fields. *)
Definition two_entries_input : dict value :=
  [("h1", VDict [("loaded_modules", VDict [("m", VDict [])]);
                 ("results",
                  VDict [("m", VDict [("mitigation",
                                       VDict [("Entry",
                                               VDict [("a", VInt 1)])]);
                                      ("banner", VStr "x")])])]);
   ("h2", VDict [("loaded_modules", VDict [("m", VDict [])]);
                 ("results",
                  VDict [("m", VDict [("mitigation",
                                       VDict [("Entry",
                                               VDict [("b", VInt 2)])]);
                                      ("banner", VStr "y")])])])].

(** A tree as the split leaves it: two hosts with an "Entry" and a "raw"
    for module "m"; the second "Entry" writes "Foo" and then "foo". *)
Definition two_entries_split : dict (dict (dict value)) :=
  [("h1", [("m", [("Entry", VDict [("a", VInt 1)]);
                  ("raw", VDict [("banner", VStr "x")])])]);
   ("h2", [("m", [("Entry", VDict [("Foo", VInt 2); ("foo", VInt 3)]);
                  ("raw", VDict [("banner", VStr "y")])])])].

(** A correct envelope around the compliance scenario. *)
Definition compare_one_input : dict value :=
  [("h1", VDict [("loaded_modules", VDict [("compare_one", VDict [])]);
                 ("results",
                  VDict [("compare_one", VDict compare_one_sheets)])])].
(** * Properties *)

(** ** Dictionary facts *)

Module PyDictFacts.
Import PyDict.
Section Facts.
Variable V : Type.
Implicit Types (d : dict V) (k : string) (v : V).

Lemma get_set_same k v d : get k (set k v d) = Some v.
Proof.
  induction d as [|[k' v'] d IH]; simpl.
  - now rewrite String.eqb_refl.
  - destruct (String.eqb k k') eqn:E; simpl; rewrite E; auto.
Qed.

Lemma get_set_other k k' v d : k <> k' -> get k' (set k v d) = get k' d.
Proof.
  intros Hne. induction d as [|[k0 v0] d IH]; simpl.
  - destruct (String.eqb k' k) eqn:E; auto.
    apply String.eqb_eq in E. congruence.
  - destruct (String.eqb k k0) eqn:E; simpl.
    + apply String.eqb_eq in E. subst k0.
      destruct (String.eqb k' k) eqn:E'; auto.
      apply String.eqb_eq in E'. congruence.
    + now rewrite IH.
Qed.

Lemma get_remove_same k d : get k (remove k d) = None.
Proof.
  induction d as [|[k' v'] d IH]; simpl; auto.
  destruct (String.eqb k k') eqn:E; simpl; auto. now rewrite E.
Qed.

Lemma get_remove_other k k' d : k <> k' -> get k' (remove k d) = get k' d.
Proof.
  intros Hne. induction d as [|[k0 v0] d IH]; simpl; auto.
  destruct (String.eqb k k0) eqn:E; simpl.
  - apply String.eqb_eq in E. subst k0.
    destruct (String.eqb k' k) eqn:E'; auto.
    apply String.eqb_eq in E'. congruence.
  - now rewrite IH.
Qed.

Lemma remove_absent k d : get k d = None -> remove k d = d.
Proof.
  induction d as [|[k' v'] d IH]; simpl; auto.
  destruct (String.eqb k k'); [discriminate|].
  intros H. now rewrite IH.
Qed.

Lemma get_app k d1 d2 :
  get k (d1 ++ d2) =
  match get k d1 with Some v => Some v | None => get k d2 end.
Proof.
  induction d1 as [|[k' v'] d1 IH]; simpl; auto.
  destruct (String.eqb k k'); auto.
Qed.

Lemma get_Some_In k v d : get k d = Some v -> In (k, v) d.
Proof.
  induction d as [|[k' v'] d IH]; simpl; [discriminate|].
  destruct (String.eqb k k') eqn:E.
  - apply String.eqb_eq in E. intros [= ->]. subst. now left.
  - auto.
Qed.

Lemma get_None_iff k d : get k d = None <-> ~ In k (keys d).
Proof.
  induction d as [|[k' v'] d IH]; simpl.
  - tauto.
  - destruct (String.eqb k k') eqn:E.
    + apply String.eqb_eq in E. subst. split; [discriminate | tauto].
    + apply String.eqb_neq in E. rewrite IH. split.
      * intros H [H1 | H1]; [congruence | tauto].
      * tauto.
Qed.

Lemma mem_true_iff k d : mem k d = true <-> In k (keys d).
Proof.
  unfold mem. pose proof (get_None_iff k d) as H.
  destruct (get k d).
  - split; auto. intros _.
    destruct (in_dec string_dec k (keys d)) as [Hin|Hn]; auto.
    apply H in Hn. discriminate.
  - split; [discriminate|]. intros Hin. exfalso. now apply H.
Qed.

Lemma In_get_NoDup k v d : NoDup (keys d) -> In (k, v) d -> get k d = Some v.
Proof.
  induction d as [|[k' v'] d IH]; simpl; [tauto|].
  intros Hnd [Heq | Hin].
  - inversion Heq; subst. now rewrite String.eqb_refl.
  - inversion Hnd as [|? ? Hnotin Hnd']; subst.
    destruct (String.eqb k k') eqn:E; auto.
    apply String.eqb_eq in E. subst k'. exfalso. apply Hnotin.
    change k with (fst (k, v)). now apply in_map.
Qed.

Lemma set_absent k v d : get k d = None -> set k v d = d ++ [(k, v)].
Proof.
  induction d as [|[k' v'] d IH]; simpl; auto.
  destruct (String.eqb k k'); [discriminate|].
  intros H. now rewrite IH.
Qed.

Lemma keys_set k v d :
  keys (set k v d) = if mem k d then keys d else keys d ++ [k].
Proof.
  unfold mem. induction d as [|[k' v'] d IH]; simpl; auto.
  destruct (String.eqb k k') eqn:E; simpl; auto.
  rewrite IH. now destruct (get k d).
Qed.

Lemma In_keys_set k k' v d :
  In k' (keys (set k v d)) <-> k' = k \/ In k' (keys d).
Proof.
  rewrite keys_set. destruct (mem k d) eqn:E.
  - apply mem_true_iff in E. split; auto. intros [-> | H]; auto.
  - rewrite in_app_iff. simpl. split; intros H; intuition.
Qed.

Lemma In_keys_remove k k' d :
  In k' (keys (remove k d)) <-> k' <> k /\ In k' (keys d).
Proof.
  induction d as [|[k0 v0] d IH]; simpl; [tauto|].
  destruct (String.eqb k k0) eqn:E; simpl.
  - apply String.eqb_eq in E. subst k0. rewrite IH.
    split; [tauto|]. intros [Hne [Heq | Hin]]; [congruence | tauto].
  - apply String.eqb_neq in E. rewrite IH.
    split; [intros [<- | H]; [split; auto; congruence | tauto]|tauto].
Qed.

(** Writing the entries of [l] one by one: the last write of a key wins. *)
Lemma get_fold_set k (l : dict V) d :
  get k (fold_left (fun acc kv => set (fst kv) (snd kv) acc) l d) =
  match get k (rev l) with Some v => Some v | None => get k d end.
Proof.
  revert d. induction l as [|[k' v'] l IH]; intros d; simpl; auto.
  rewrite IH, get_app. destruct (get k (rev l)); auto. simpl.
  destruct (String.eqb k k') eqn:E.
  - apply String.eqb_eq in E. subst. apply get_set_same.
  - apply String.eqb_neq in E. apply get_set_other. congruence.
Qed.

Lemma get_update k d other :
  get k (update d other) =
  match get k (rev other) with Some v => Some v | None => get k d end.
Proof. apply get_fold_set. Qed.

Lemma get_rev_NoDup k d : NoDup (keys d) -> get k (rev d) = get k d.
Proof.
  induction d as [|[k' v'] d IH]; simpl; auto.
  intros Hnd. inversion Hnd as [|? ? Hnotin Hnd']; subst.
  rewrite get_app, IH by assumption. simpl.
  destruct (String.eqb k k') eqn:E; [|now destruct (get k d)].
  apply String.eqb_eq in E. subst k'.
  apply get_None_iff in Hnotin. now rewrite Hnotin.
Qed.

End Facts.
End PyDictFacts.

(** ** Result extraction *)

Section Extraction.
Import PyDict PyDictFacts Report.

Lemma get_rev_None (V : Type) k (d : dict V) :
  get k d = None -> get k (rev d) = None.
Proof.
  rewrite !get_None_iff. unfold keys. rewrite map_rev.
  intros H Hin. apply H. now apply in_rev.
Qed.

Lemma extract_loop_app pre post modules :
  extract_loop (pre ++ post) modules =
  match extract_loop pre modules with
  | (pre', Ok modules') =>
      let (post', r) := extract_loop post modules' in (pre' ++ post', r)
  | (pre', Raise e) => (pre' ++ post, Raise e)
  end.
Proof.
  revert modules. induction pre as [|[h v] pre IH]; intros modules; simpl.
  - now destruct (extract_loop post modules).
  - destruct (extract_host v modules) as [v' [m'|e]]; auto.
    rewrite IH. destruct (extract_loop pre m') as [pre' [m''|e]]; auto.
    now destruct (extract_loop post m'').
Qed.

(** A successful body leaves the catalogue updated with the host's
    declarations, or untouched when the host has no envelope. *)
Lemma extract_host_catalogue v modules v' modules' :
  extract_host v modules = (v', Ok modules') ->
  modules' = match loaded_modules_of v with
             | Some loaded => update modules loaded
             | None => modules
             end.
Proof.
  unfold extract_host, loaded_modules_of.
  destruct v as [| | | | |record]; try discriminate.
  destruct (get "loaded_modules" record) as [lm|]; [|now intros [= _ <-]].
  destruct lm as [| | | | |loaded]; simpl; try discriminate.
  destruct (get "results" _); [|discriminate]. now intros [= _ <-].
Qed.

(** Hosts that do not declare [k] leave the catalogue's value at [k]. *)
Lemma extract_loop_undeclared k res : forall modules res' modules',
  extract_loop res modules = (res', Ok modules') ->
  (forall h v, In (h, v) res -> declares k v = false) ->
  get k modules' = get k modules.
Proof.
  induction res as [|[h v] res IH]; intros modules res' modules'; simpl.
  - now intros [= _ <-].
  - destruct (extract_host v modules) as [v' [m1|e]] eqn:Eh;
      [|discriminate].
    destruct (extract_loop res m1) as [rest' r] eqn:El.
    intros [= _ ->] Hnone.
    rewrite (IH _ _ _ El) by (intros; eapply Hnone; right; eauto).
    apply extract_host_catalogue in Eh. subst m1.
    specialize (Hnone h v (or_introl eq_refl)). unfold declares in Hnone.
    destruct (loaded_modules_of v) as [loaded|]; auto.
    rewrite get_update, get_rev_None; auto.
    unfold mem in Hnone. now destruct (get k loaded).
Qed.

(** C6, as stated, fails: with two hosts declaring module "m", the
    catalogue does not keep the metadata of the first host. *)
Lemma C6_earlier_metadata_overwritten :
  ~ (exists res' cat,
        extract_results two_hosts_one_module = (res', Ok cat) /\
        get "m" cat = Some (VInt 1)).
Proof.
  intros (res' & cat & Hrun & Hget).
  vm_compute in Hrun. injection Hrun as _ <-. discriminate Hget.
Qed.

(** C6, amended: the catalogue maps a module identifier to the metadata
    declared by the last host, in iteration order, whose "loaded_modules"
    has it; an identifier once declared is therefore never lost, and a later
    declaration replaces an earlier one. *)
Theorem C6_last_declaration_wins pre h record post loaded k v res' cat :
  extract_results (pre ++ (h, VDict record) :: post) = (res', Ok cat) ->
  get "loaded_modules" record = Some (VDict loaded) ->
  NoDup (keys loaded) ->
  get k loaded = Some v ->
  (forall h' v', In (h', v') post -> declares k v' = false) ->
  get k cat = Some v.
Proof.
  unfold extract_results. rewrite extract_loop_app.
  destruct (extract_loop pre []) as [pre' [m1|e]]; [|discriminate].
  destruct (extract_loop ((h, VDict record) :: post) m1) as [post' r] eqn:El.
  intros [= _ ->] Hlm Hnd Hk Hpost.
  simpl in El. rewrite Hlm in El. simpl in El.
  destruct (get "results" (remove "loaded_modules" record));
    [|discriminate].
  destruct (extract_loop post (update m1 loaded)) as [rest' r'] eqn:El'.
  injection El as _ ->.
  rewrite (extract_loop_undeclared k _ _ El' Hpost).
  now rewrite get_update, get_rev_NoDup, Hk.
Qed.

Lemma C6_last_declaration_wins_witness :
  get "m" [("m", VInt 2)] = Some (VInt 2).
Proof.
  apply (@C6_last_declaration_wins
           [("h1", VDict [("loaded_modules", VDict [("m", VInt 1)]);
                          ("results", VDict [])])]
           "h2"
           [("loaded_modules", VDict [("m", VInt 2)]); ("results", VDict [])]
           [] [("m", VInt 2)] "m" (VInt 2)
           [("h1", VDict []); ("h2", VDict [])]).
  - reflexivity.
  - reflexivity.
  - repeat constructor. simpl. tauto.
  - reflexivity.
  - simpl. tauto.
Defined.

(** C7, as stated, fails: when a "results" mapping has a "loaded_modules"
    key of its own, the key is back in the host record after the first
    application, and the second application changes tree and catalogue. *)
Lemma C7_second_extraction_not_noop :
  exists res' cat,
    extract_results nested_envelope = (res', Ok cat) /\
    extract_results res' <> (res', Ok []).
Proof.
  eexists. eexists. split.
  - vm_compute. reflexivity.
  - vm_compute. discriminate.
Qed.

(** C7, amended: for a results tree in which every host value is a record
    without the envelope key, or an envelope whose "results" is a mapping
    without a "loaded_modules" key of its own, extraction succeeds, and
    applying it to its own output leaves the tree unchanged and yields an
    empty catalogue. *)
Theorem C7_extraction_idempotent res :
  Forall (fun hv => unwraps_clean (snd hv) = true) res ->
  exists res' cat,
    extract_results res = (res', Ok cat) /\
    extract_results res' = (res', Ok []).
Proof.
  unfold extract_results. generalize (@nil (string * value)) at 1 as modules.
  intros modules Hall.
  enough (exists res' cat,
             extract_loop res modules = (res', Ok cat) /\
             forall m2, extract_loop res' m2 = (res', Ok m2)) as
    (res' & cat & H1 & H2) by (exists res', cat; auto).
  revert modules. induction Hall as [|[h v] res Hv Hall IH]; intros modules.
  - exists [], modules. split; auto.
  - simpl in Hv. unfold unwraps_clean in Hv.
    destruct v as [| | | | |record]; try discriminate.
    simpl. destruct (get "loaded_modules" record) as [lm|] eqn:Elm.
    + destruct lm as [| | | | |loaded]; try discriminate. simpl.
      rewrite get_remove_other by discriminate.
      destruct (get "results" record) as [r|]; [|discriminate].
      destruct r as [| | | | |r]; try discriminate.
      destruct (IH (update modules loaded)) as (res' & cat & H1 & H2).
      rewrite H1. exists ((h, VDict r) :: res'), cat. split; auto.
      intros m2. simpl. unfold mem in Hv.
      destruct (get "loaded_modules" r); [discriminate|].
      now rewrite H2.
    + destruct (IH modules) as (res' & cat & H1 & H2).
      rewrite H1. exists ((h, VDict record) :: res'), cat. split; auto.
      intros m2. simpl. rewrite Elm. now rewrite H2.
Qed.

Lemma C7_extraction_idempotent_witness :
  exists res' cat,
    extract_results two_hosts_one_module = (res', Ok cat) /\
    extract_results res' = (res', Ok []).
Proof.
  apply (@C7_extraction_idempotent two_hosts_one_module).
  repeat constructor.
Defined.

(** C9: a host record that has "loaded_modules" (a mapping) but no
    "results" key makes extraction raise KeyError("results"); the hosts
    before it are already unwrapped and the record itself is left in the
    tree with "loaded_modules" deleted. *)
Theorem C9_missing_results_raises pre pre' cat h record loaded post :
  extract_loop pre [] = (pre', Ok cat) ->
  get "loaded_modules" record = Some (VDict loaded) ->
  get "results" record = None ->
  extract_results (pre ++ (h, VDict record) :: post) =
    (pre' ++ (h, VDict (remove "loaded_modules" record)) :: post,
     Raise (KeyError "results")).
Proof.
  intros Hpre Hlm Hres. unfold extract_results.
  rewrite extract_loop_app, Hpre. simpl. rewrite Hlm. simpl.
  rewrite get_remove_other by discriminate. now rewrite Hres.
Qed.

Lemma C9_missing_results_raises_witness :
  extract_results
    [("h1", VDict [("loaded_modules", VDict [("m", VInt 1)]);
                   ("results", VDict [("m", VDict [])])]);
     ("h2", VDict [("loaded_modules", VDict [("m", VInt 2)]);
                   ("error", VStr "timeout")]);
     ("h3", VDict [])] =
    ([("h1", VDict [("m", VDict [])]);
      ("h2", VDict [("error", VStr "timeout")]);
      ("h3", VDict [])],
     Raise (KeyError "results")).
Proof.
  apply (@C9_missing_results_raises
           [("h1", VDict [("loaded_modules", VDict [("m", VInt 1)]);
                          ("results", VDict [("m", VDict [])])])]
           [("h1", VDict [("m", VDict [])])]
           [("m", VInt 1)] "h2"
           [("loaded_modules", VDict [("m", VInt 2)]);
            ("error", VStr "timeout")]
           [("m", VInt 2)] [("h3", VDict [])]);
    reflexivity.
Defined.

End Extraction.

(** ** Compliance flattening *)

Section Flattening.
Import PyDict PyDictFacts Report.

Lemma append_inj_r (p a b : string) : (p ++ a = p ++ b)%string -> a = b.
Proof.
  induction p as [|c p IH]; simpl; auto. intros [= H]. auto.
Qed.

Lemma append_neq_self (p x : string) : x <> "" -> (p ++ x)%string <> p.
Proof.
  intros Hx. induction p as [|c p IH]; simpl.
  - exact Hx.
  - intros [= H]. auto.
Qed.

Lemma synthetic_inj cid s s' : synthetic cid s = synthetic cid s' -> s = s'.
Proof.
  unfold synthetic. intros H. apply append_inj_r in H.
  now injection H.
Qed.

Lemma synthetic_neq cid s : synthetic cid s <> cid.
Proof. unfold synthetic. apply append_neq_self. discriminate. Qed.

Lemma NoDup_keys_synthetic cid sheets :
  NoDup (keys sheets) -> NoDup (keys (synthetic_modules cid sheets)).
Proof.
  unfold synthetic_modules, mitigated, keys.
  induction sheets as [|[s c] sheets IH]; simpl; [constructor|].
  intros Hnd. inversion Hnd as [|? ? Hnotin Hnd']; subst.
  destruct (has_mitigation c); simpl; auto.
  constructor; auto.
  rewrite map_map. simpl. intros Hin. apply in_map_iff in Hin.
  destruct Hin as ([s' c'] & Heq & Hin). simpl in Heq.
  apply synthetic_inj in Heq. subst s'.
  apply filter_In in Hin. destruct Hin as [Hin _].
  apply Hnotin. change s with (fst (s, c')). now apply in_map.
Qed.

(** The sheet loop writes the synthetic modules one by one into the host
    record and registers each with empty metadata. *)
Lemma flatten_sheets_spec cid sheets : forall record modules,
  Forall (fun sv => is_mapping (snd sv) = true) sheets ->
  flatten_sheets cid sheets record modules =
  Ok (update record (synthetic_modules cid sheets),
      update modules
        (map (fun kv => (fst kv, VStr "")) (synthetic_modules cid sheets))).
Proof.
  induction sheets as [|[s c] sheets IH]; intros record modules Hall;
    simpl; auto.
  inversion Hall as [|? ? Hc Hall']; subst. simpl in Hc.
  destruct c as [| | | | |c]; try discriminate. simpl.
  unfold synthetic_modules, mitigated. simpl.
  destruct (mem "mitigation" c); simpl; now rewrite IH.
Qed.

Lemma flatten_host_spec cid record sheets modules :
  get cid record = Some (VDict sheets) ->
  Forall (fun sv => is_mapping (snd sv) = true) sheets ->
  flatten_host cid (VDict record) modules =
  Ok (VDict (remove cid (update record (synthetic_modules cid sheets))),
      update modules
        (map (fun kv => (fst kv, VStr "")) (synthetic_modules cid sheets))).
Proof.
  intros Hget Hall. unfold flatten_host. simpl. rewrite Hget.
  assert (Hmem : forall S, mem cid (update record S) = true).
  { intros S. unfold mem. rewrite get_update, Hget.
    now destruct (get cid (rev S)). }
  destruct sheets as [|sv sheets]; simpl.
  - unfold del. specialize (Hmem []). simpl in Hmem. now rewrite Hmem.
  - change (match sv with (sheet, content) => _ end)
      with (flatten_sheets cid (sv :: sheets) record modules).
    rewrite flatten_sheets_spec by assumption. simpl.
    unfold del. now rewrite Hmem.
Qed.

(** A host without the compliance module: the unguarded [del] raises. *)
Lemma flatten_host_absent cid record modules :
  get cid record = None ->
  flatten_host cid (VDict record) modules = Raise (KeyError cid).
Proof.
  intros Hget. unfold flatten_host. simpl. rewrite Hget. simpl.
  unfold del, mem. now rewrite Hget.
Qed.

Lemma has_sheets_flattened cid record sheets :
  get cid record = Some (VDict sheets) ->
  NoDup (keys sheets) ->
  flattened cid (VDict record)
    (VDict (remove cid (update record (synthetic_modules cid sheets)))).
Proof.
  intros Hget Hnd. exists record, sheets. eexists.
  repeat split; eauto.
  - apply get_remove_same.
  - unfold synthetic_modules. now rewrite length_map.
  - unfold mitigated. apply filter_length_le.
  - now apply NoDup_keys_synthetic.
  - intros k Hk. rewrite get_remove_other by congruence.
    rewrite get_update, get_rev_NoDup; auto.
    now apply NoDup_keys_synthetic.
Qed.

Lemma mem_rev (V : Type) k (d : dict V) : mem k (rev d) = mem k d.
Proof.
  destruct (mem k d) eqn:E.
  - apply mem_true_iff. apply mem_true_iff in E.
    unfold keys in *. rewrite map_rev. now apply in_rev in E.
  - unfold mem in *. destruct (get k d) eqn:G; [discriminate|].
    now rewrite get_rev_None.
Qed.

Lemma get_map_const (V W : Type) k (c : W) (d : dict V) :
  get k (map (fun kv => (fst kv, c)) d) = if mem k d then Some c else None.
Proof.
  unfold mem. induction d as [|[k' v'] d IH]; simpl; auto.
  destruct (String.eqb k k'); auto.
Qed.

(** Registering the names of [S] with metadata [c]. *)
Lemma get_update_const (V : Type) k (c : V) (m S : dict V) :
  get k (update m (map (fun kv => (fst kv, c)) S)) =
  if mem k S then Some c else get k m.
Proof.
  rewrite get_update, <- map_rev, get_map_const, mem_rev.
  now destruct (mem k S).
Qed.

Lemma registers_dec cid k hv : {registers cid k hv} + {~ registers cid k hv}.
Proof.
  destruct hv as [h v]. unfold registers. simpl.
  destruct v as [| | | | |record];
    try (right; intros (r0 & s0 & H & _); discriminate H).
  destruct (get cid record) as [sv|] eqn:G.
  - destruct sv as [| | | | |sheets];
      try (right; intros (r0 & s0 & H & H' & _);
           injection H as <-; rewrite G in H'; discriminate H').
    destruct (in_dec string_dec k (keys (synthetic_modules cid sheets)))
      as [Hi|Hn].
    + left. exists record, sheets. auto.
    + right. intros (r0 & s0 & H & H' & H'').
      injection H as <-. rewrite G in H'. injection H' as <-.
      contradiction.
  - right. intros (r0 & s0 & H & H' & _).
    injection H as <-. rewrite G in H'. discriminate H'.
Qed.

Lemma flatten_hosts_spec cid results : forall modules,
  Forall (fun hv => has_sheets cid (snd hv)) results ->
  exists results' modules',
    flatten_hosts cid results modules = Ok (results', modules') /\
    Forall2 (fun hv hv' =>
               fst hv' = fst hv /\ flattened cid (snd hv) (snd hv'))
      results results' /\
    (forall k, Exists (registers cid k) results ->
               get k modules' = Some (VStr "")) /\
    (forall k, ~ Exists (registers cid k) results ->
               get k modules' = get k modules).
Proof.
  induction results as [|[h v] results IH]; intros modules Hall.
  - exists [], modules. simpl. repeat split; auto.
    intros k Hex. inversion Hex.
  - inversion Hall as [|? ? Hv Hall']; subst. simpl in Hv.
    destruct Hv as (record & sheets & -> & Hget & Hnd & Hmap).
    simpl. rewrite (@flatten_host_spec cid record sheets modules Hget Hmap). simpl.
    set (regs := map (fun kv => (fst kv, VStr ""))
                   (synthetic_modules cid sheets)).
    destruct (IH (update modules regs) Hall')
      as (results' & modules' & Hrun & Hrel & Hreg & Hother).
    rewrite Hrun. simpl. eexists. exists modules'. split; [reflexivity|].
    split; [|split].
    + constructor; auto. split; auto. now apply has_sheets_flattened.
    + intros k Hex.
      destruct (Exists_dec (registers cid k) results
                  (registers_dec cid k)) as [Hin|Hnot].
      * now apply Hreg.
      * rewrite (Hother k Hnot). inversion Hex as [? ? Hhd|]; subst;
          [|contradiction].
        destruct Hhd as (r & s & H & H' & Hin). simpl in H.
        injection H as <-. rewrite Hget in H'. injection H' as <-.
        unfold regs. rewrite get_update_const.
        apply mem_true_iff in Hin. now rewrite Hin.
    + intros k Hnot. rewrite Hother.
      * unfold regs. rewrite get_update_const.
        destruct (mem k (synthetic_modules cid sheets)) eqn:E; auto.
        exfalso. apply Hnot. left. exists record, sheets.
        apply mem_true_iff in E. auto.
      * intros Hex. apply Hnot. now right.
Qed.

(** C8: when every host carries the compliance module with N sheets, M of
    them holding a "mitigation" key, flattening succeeds; each host record
    loses the compliance module and gains exactly the M synthetic modules
    named <compliance-id>_<sheet-id> (pairwise distinct, every other key as
    before); the catalogue loses the compliance module, lists each
    synthetic module with empty metadata and is otherwise as before. *)
Theorem C8_flatten_compliance cid results modules :
  selected_compliance_module modules = Some cid ->
  Forall (fun hv => has_sheets cid (snd hv)) results ->
  exists results' modules',
    flatten_compliance results modules = Ok (results', modules') /\
    Forall2 (fun hv hv' =>
               fst hv' = fst hv /\ flattened cid (snd hv) (snd hv'))
      results results' /\
    get cid modules' = None /\
    (forall h record sheets s,
       In (h, VDict record) results ->
       get cid record = Some (VDict sheets) ->
       In s (keys (mitigated sheets)) ->
       get (synthetic cid s) modules' = Some (VStr "")) /\
    (forall k, k <> cid -> ~ Exists (registers cid k) results ->
               get k modules' = get k modules).
Proof.
  intros Hsel Hall.
  destruct (@flatten_hosts_spec cid results modules Hall)
    as (results' & modules1 & Hrun & Hrel & Hreg & Hother).
  assert (Hcid : get cid modules1 = get cid modules).
  { apply Hother. intros Hex. apply Exists_exists in Hex.
    destruct Hex as (hv & _ & r & s & _ & _ & Hin).
    unfold synthetic_modules, keys in Hin. rewrite map_map in Hin.
    apply in_map_iff in Hin. destruct Hin as (sv & Heq & _).
    simpl in Heq. now apply synthetic_neq in Heq. }
  assert (Hmem : mem cid modules = true /\
                 flatten_compliance results modules =
                 ('(results', modules1) <-
                    flatten_hosts cid results modules ;;
                  modules2 <- del cid modules1 ;; Ok (results', modules2))).
  { unfold selected_compliance_module in Hsel. unfold flatten_compliance.
    destruct (mem "compare_one" modules) eqn:E1.
    - injection Hsel as <-. auto.
    - destruct (mem "compare_many" modules) eqn:E2; [|discriminate].
      injection Hsel as <-. auto. }
  destruct Hmem as [Hmem Hdef].
  exists results', (remove cid modules1).
  split; [|split; [|split; [|split]]];
    [| | | |intros k Hk Hnot; rewrite get_remove_other by congruence;
            now apply Hother].
  - rewrite Hdef, Hrun. simpl. unfold del, mem. rewrite Hcid.
    unfold mem in Hmem. now destruct (get cid modules).
  - exact Hrel.
  - apply get_remove_same.
  - intros h record sheets s Hin Hget Hs.
    rewrite get_remove_other by (intros H; symmetry in H;
                                 now apply synthetic_neq in H).
    apply Hreg. apply Exists_exists. exists (h, VDict record).
    split; auto. exists record, sheets. repeat split; auto.
    unfold synthetic_modules, keys. rewrite map_map. simpl.
    unfold keys in Hs. apply in_map_iff in Hs.
    destruct Hs as (sv & <- & Hsv). apply in_map_iff. exists sv. auto.
Qed.

Lemma C8_flatten_compliance_witness :
  exists results' modules',
    flatten_compliance compare_one_tree [("compare_one", VDict [])] =
      Ok (results', modules') /\
    Forall2 (fun hv hv' =>
               fst hv' = fst hv /\
               flattened "compare_one" (snd hv) (snd hv'))
      compare_one_tree results' /\
    get "compare_one" modules' = None /\
    (forall h record sheets s,
       In (h, VDict record) compare_one_tree ->
       get "compare_one" record = Some (VDict sheets) ->
       In s (keys (mitigated sheets)) ->
       get (synthetic "compare_one" s) modules' = Some (VStr "")) /\
    (forall k, k <> "compare_one" ->
               ~ Exists (registers "compare_one" k) compare_one_tree ->
               get k modules' = get k [("compare_one", VDict [])]).
Proof.
  apply (@C8_flatten_compliance "compare_one" compare_one_tree
           [("compare_one", VDict [])]).
  - reflexivity.
  - constructor; [|constructor].
    exists [("compare_one", VDict compare_one_sheets)], compare_one_sheets.
    split; [reflexivity|]. split; [reflexivity|]. split.
    + repeat constructor; simpl; intuition discriminate.
    + repeat constructor.
Defined.

(** The scenario of C8 evaluated: only "compare_one_s1" is produced. *)
Example compare_one_scenario :
  flatten_compliance compare_one_tree [("compare_one", VDict [])] =
  Ok ([("h1", VDict [("compare_one_s1",
                      VDict [("mitigation", VDict [("x", VInt 1)])])])],
      [("compare_one_s1", VStr "")]).
Proof. reflexivity. Qed.

(** C2, on the code: a host without data under the compliance module
    makes the flattening raise KeyError, both on the tree as the loop
    receives it and through [run]. *)
Theorem C2_absent_compliance_module_raises :
  flatten_compliance
    [("h1", VDict [("m1", VDict [("x", VInt 1)])])]
    [("compare_one", VDict []); ("m1", VDict [])] =
    Raise (KeyError "compare_one") /\
  run MODULES compliance_absent_on_host = Raise (KeyError "compare_one") /\
  run HOSTS compliance_absent_on_host = Raise (KeyError "compare_one").
Proof. repeat split; reflexivity. Qed.

End Flattening.

(** ** Raw/finding split *)

Section Split.
Import PyDict PyDictFacts Report.

(** Where no mapping has the key, the scan yields markers only. *)
Lemma rec_search_key_markers key v :
  has_key_deep key v = false ->
  Forall (fun x => is_none x = true) (rec_search_key key v).
Proof.
  induction v as [| | | |l IH|d IH] using value_ind; simpl; intros Hno;
    try (repeat constructor).
  - assert (H : Forall (fun x => is_none x = true)
                  (flat_map (rec_search_key key) l)).
    { induction IH as [|x l Hx _ IHl]; simpl; [constructor|].
      simpl in Hno. apply orb_false_iff in Hno. destruct Hno as [H1 H2].
      apply Forall_app. auto. }
    destruct (flat_map (rec_search_key key) l); auto.
  - assert (H : Forall (fun x => is_none x = true)
                  (flat_map (fun kv => if String.eqb (fst kv) key
                                       then [snd kv]
                                       else rec_search_key key (snd kv)) d)).
    { induction IH as [|kv d Hx _ IHd]; simpl; [constructor|].
      simpl in Hno. apply orb_false_iff in Hno. destruct Hno as [H1 H2].
      apply orb_false_iff in H1. destruct H1 as [H1 H1'].
      rewrite H1. apply Forall_app. auto. }
    destruct (flat_map _ d); auto.
Qed.

Lemma take_mitigations_markers found current :
  Forall (fun x => is_none x = true) found ->
  take_mitigations found current = Ok current.
Proof.
  induction 1 as [|x found Hx _ IH]; simpl; auto. now rewrite Hx.
Qed.

Lemma has_key_deep_top key d :
  has_key_deep key (VDict d) = false -> get key d = None.
Proof.
  simpl. induction d as [|[k v] d IH]; simpl; auto.
  intros H. apply orb_false_iff in H. destruct H as [H1 H2].
  apply orb_false_iff in H1. destruct H1 as [H1 _].
  rewrite String.eqb_sym in H1. rewrite H1. auto.
Qed.

(** The split rewrites each (host, module) pair by [split_module]. *)
Lemma split_modules_In record : forall record' m r,
  split_modules record = Ok record' ->
  In (m, r) record ->
  exists r', split_module r = Ok r' /\ In (m, r') record'.
Proof.
  induction record as [|[m0 r0] record IH]; intros record' m r; simpl;
    [tauto|].
  destruct (split_module r0) as [r0'|] eqn:E0; [|discriminate]. simpl.
  destruct (split_modules record) as [rest'|]; [|discriminate]. simpl.
  intros [= <-] [[= -> ->] | Hin].
  - exists r0'. simpl. auto.
  - destruct (IH _ _ _ eq_refl Hin) as (r' & H1 & H2).
    exists r'. simpl. auto.
Qed.

Lemma split_hosts_In results : forall tree h record m r,
  split_hosts results = Ok tree ->
  In (h, VDict record) results ->
  In (m, r) record ->
  exists record' r',
    In (h, record') tree /\ split_module r = Ok r' /\ In (m, r') record'.
Proof.
  induction results as [|[h0 v0] results IH]; intros tree h record m r;
    simpl; [tauto|].
  destruct v0 as [| | | | |record0]; try discriminate. simpl.
  destruct (split_modules record0) as [record0'|] eqn:E0; [|discriminate].
  simpl. destruct (split_hosts results) as [rest'|]; [|discriminate].
  simpl. intros [= <-] [[= -> ->] | Hin] Hm.
  - destruct (split_modules_In _ _ _ E0 Hm) as (r' & H1 & H2).
    exists record0', r'. simpl. auto.
  - destruct (IH _ _ _ _ _ eq_refl Hin Hm) as (record' & r' & H1 & H2 & H3).
    exists record', r'. simpl. auto.
Qed.

(** C3, as stated, fails: a module result without any mitigation keeps its
    top-level keys next to "raw". *)
Lemma C3_original_keys_survive :
  ~ (exists r',
        split_module (VDict result_without_mitigation) = Ok r' /\
        keys r' = ["raw"]).
Proof.
  intros (r' & Hrun & Hkeys). vm_compute in Hrun.
  injection Hrun as <-. discriminate Hkeys.
Qed.

(** C3, amended: a module result that has no "mitigation" key at any depth
    is not replaced; it keeps every original top-level key and gains a
    "raw" key holding a copy of the original result (an original "raw" key
    is overwritten).  This holds for every (host, module) pair of a tree
    that the split processes. *)
Theorem C3_no_mitigation_keeps_result d :
  has_key_deep "mitigation" (VDict d) = false ->
  split_module (VDict d) = Ok (set "raw" (VDict d) d) /\
  get "raw" (set "raw" (VDict d) d) = Some (VDict d) /\
  (forall k, k <> "raw" -> get k (set "raw" (VDict d) d) = get k d) /\
  forall results tree h record m,
    split_hosts results = Ok tree ->
    In (h, VDict record) results ->
    In (m, VDict d) record ->
    exists record',
      In (h, record') tree /\ In (m, set "raw" (VDict d) d) record'.
Proof.
  intros Hno.
  assert (Hrun : split_module (VDict d) = Ok (set "raw" (VDict d) d)).
  { pose proof (has_key_deep_top _ _ Hno) as Htop.
    assert (Hraw : raw_of (VDict d) = Ok (VDict d)).
    { unfold raw_of, mem. now rewrite Htop. }
    unfold split_module. rewrite Hraw.
    rewrite take_mitigations_markers
      by (apply rec_search_key_markers; exact Hno).
    reflexivity. }
  split; [exact Hrun|]. split; [apply get_set_same|]. split.
  - intros k Hk. apply get_set_other. congruence.
  - intros results tree h record m Hsplit Hh Hm.
    destruct (split_hosts_In _ _ _ _ _ Hsplit Hh Hm)
      as (record' & r' & H1 & H2 & H3).
    rewrite Hrun in H2. injection H2 as <-. eauto.
Qed.

Lemma C3_no_mitigation_keeps_result_witness :
  split_module (VDict result_without_mitigation) =
  Ok [("other", VInt 1); ("raw", VDict [("other", VInt 1)])].
Proof.
  apply (@C3_no_mitigation_keeps_result result_without_mitigation).
  reflexivity.
Defined.





End Split.

(** ** Host-grouped view *)

(** Dictionary types are unfolded to their lists before rewriting under
    them. *)
Ltac unfold_dict_types :=
  unfold Report.module_state, dict, cidict, CaseInsensitiveDict.t,
    PyDict.t in *.

Section HostsView.
Import PyDict PyDictFacts Report.

Lemma renderable_result_raw r raw :
  renderable_result r = true -> get "raw" r = Some raw -> copy raw = Ok raw.
Proof.
  unfold renderable_result. intros H Hraw. rewrite Hraw in H.
  apply andb_true_iff in H. destruct H as [H _].
  now destruct raw.
Qed.

Lemma renderable_result_entry r e :
  renderable_result r = true -> get "Entry" r = Some e ->
  exists c, CaseInsensitiveDict_of e = Ok c.
Proof.
  unfold renderable_result. intros H He. rewrite He in H.
  apply andb_true_iff in H. destruct H as [_ H].
  destruct e; try discriminate; simpl; eauto.
Qed.

(** The module loop of one host: it returns, and it only writes modules
    that have an "Entry". *)
Lemma host_modules_loop_spec record : forall e,
  renderable_record record = true ->
  exists e',
    host_modules_loop record e = Ok e' /\
    (forall m, (forall r, In (m, r) record -> get "Entry" r = None) ->
               get m e' = get m e) /\
    ((forall m r, In (m, r) record -> get "Entry" r = None) -> e' = e).
Proof.
  induction record as [|[m0 r0] record IH]; intros e Hok; simpl.
  - exists e. auto.
  - simpl in Hok. apply andb_true_iff in Hok. destruct Hok as [Hr0 Hok].
    unfold host_module_step.
    assert (Hraw : exists raw_results,
               match get "raw" r0 with
               | Some raw => copy raw
               | None => Ok (VDict [])
               end = Ok raw_results).
    { destruct (get "raw" r0) as [raw|] eqn:Eraw; eauto.
      rewrite (renderable_result_raw _ Hr0 Eraw). eauto. }
    destruct Hraw as (raw_results & ->). simpl.
    destruct (get "Entry" r0) as [en|] eqn:Een.
    + destruct (renderable_result_entry _ Hr0 Een) as (c & ->). simpl.
      match goal with
      | |- context [host_modules_loop record ?e0] =>
          destruct (IH e0 Hok) as (e' & Hrun & Hkeep & Hsame)
      end.
      exists e'. split; [exact Hrun|]. split.
      * intros m Hm. rewrite Hkeep by (intros; apply Hm; now right).
        apply get_set_other. intros ->.
        specialize (Hm r0 (or_introl eq_refl)). congruence.
      * intros Hnone. specialize (Hnone m0 r0 (or_introl eq_refl)).
        congruence.
    + simpl. destruct (IH e Hok) as (e' & Hrun & Hkeep & Hsame).
      exists e'. split; [exact Hrun|]. split.
      * intros m Hm. apply Hkeep. intros; apply Hm; now right.
      * intros Hnone. apply Hsame. intros; eapply Hnone; right; eauto.
Qed.

Lemma hosts_loop_spec results : forall out,
  renderable results = true ->
  NoDup (keys results) ->
  (forall h, In h (keys results) -> get h out = None) ->
  exists out',
    hosts_loop results out = Ok out' /\
    keys out' = keys out ++ keys results /\
    (forall h, ~ In h (keys results) -> get h out' = get h out) /\
    forall h record, In (h, record) results ->
      exists e, get h out' = Some e /\ host_modules_loop record [] = Ok e.
Proof.
  induction results as [|[h0 record0] results IH]; intros out Hok Hnd Hfresh.
  - exists out. simpl. rewrite app_nil_r. repeat split; auto.
    intros h record [].
  - simpl in Hok. apply andb_true_iff in Hok. destruct Hok as [Hr0 Hok].
    simpl in Hnd. inversion Hnd as [|? ? Hnotin Hnd']; subst.
    simpl. unfold host_step, mem, getitem.
    rewrite (Hfresh h0) by (simpl; auto). rewrite get_set_same. simpl.
    destruct (host_modules_loop_spec record0 [] Hr0) as (e0 & He0 & _).
    rewrite He0. simpl.
    set (out1 := set h0 e0 (set h0 [] out)).
    assert (Hget1 : forall h, h <> h0 -> get h out1 = get h out).
    { intros h Hne. unfold out1.
      now rewrite !get_set_other by congruence. }
    destruct (IH out1 Hok Hnd') as (out' & Hrun & Hkeys & Hkeep & Hall).
    { intros h Hin. rewrite Hget1.
      - apply Hfresh. simpl. auto.
      - intros ->. contradiction. }
    exists out'. split; [exact Hrun|]. split; [|split].
    + rewrite Hkeys. unfold out1. rewrite !keys_set. unfold mem.
      rewrite get_set_same.
      assert (Hh0 : get h0 out = None) by (apply Hfresh; simpl; auto).
      unfold_dict_types. rewrite Hh0.
      simpl. now rewrite <- app_assoc.
    + intros h Hnot. simpl in Hnot. rewrite Hkeep by tauto.
      apply Hget1. intros ->. tauto.
    + intros h record [[= -> ->] | Hin].
      * exists e0. split; auto. rewrite Hkeep by assumption.
        unfold out1. apply get_set_same.
      * now apply Hall.
Qed.

(** C10: the host-grouped formatter returns a view with one entry per
    hostname of the input tree, in order; a module none of whose results
    has an "Entry" key is absent from its host's entry, whatever "raw"
    payload it has, and a host with no "Entry" in any module is mapped to
    the empty record. *)
Theorem C10_hosts_view_keeps_every_host results :
  renderable results = true ->
  NoDup (keys results) ->
  exists out,
    hosts_report_formatter results = Ok out /\
    keys out = keys results /\
    forall h record, In (h, record) results ->
      exists e,
        get h out = Some e /\
        (forall m, (forall r, In (m, r) record -> get "Entry" r = None) ->
                   get m e = None) /\
        ((forall m r, In (m, r) record -> get "Entry" r = None) -> e = []).
Proof.
  intros Hok Hnd. unfold hosts_report_formatter.
  destruct (hosts_loop_spec results [] Hok Hnd)
    as (out & Hrun & Hkeys & _ & Hall); [reflexivity|].
  exists out. split; [exact Hrun|]. split; [exact Hkeys|].
  intros h record Hin. destruct (Hall h record Hin) as (e & Hget & He).
  exists e. split; [exact Hget|].
  assert (Hrec : renderable_record record = true).
  { unfold renderable in Hok. rewrite forallb_forall in Hok.
    apply (Hok (h, record) Hin). }
  destruct (host_modules_loop_spec record [] Hrec)
    as (e' & He' & Hkeep & Hsame).
  rewrite He in He'. injection He' as <-. split.
  - intros m Hm. now rewrite Hkeep.
  - exact Hsame.
Qed.

Lemma C10_hosts_view_keeps_every_host_witness :
  exists out,
    hosts_report_formatter raw_only_and_entry = Ok out /\
    keys out = ["h1"; "h2"] /\
    forall h record, In (h, record) raw_only_and_entry ->
      exists e,
        get h out = Some e /\
        (forall m, (forall r, In (m, r) record -> get "Entry" r = None) ->
                   get m e = None) /\
        ((forall m r, In (m, r) record -> get "Entry" r = None) -> e = []).
Proof.
  apply (@C10_hosts_view_keeps_every_host raw_only_and_entry).
  - reflexivity.
  - repeat constructor; simpl; intuition discriminate.
Defined.

(** The same tree evaluated: "h1" is present and empty, its "raw" payload
    is not rendered. *)
Example raw_only_host_is_empty :
  hosts_report_formatter raw_only_and_entry =
  Ok [("h1", []);
      ("h2", [("m1", [("name", ("Name", Finding (VStr "n")));
                      ("raw", ("raw",
                               Pformat (VDict [("banner", VStr "y")])))])])].
Proof. reflexivity. Qed.

End HostsView.

(** ** Module-grouped view *)

Section ModulesView.
Import PyDict PyDictFacts Report.

Lemma existsb_eqb_In h (hs : list string) :
  existsb (String.eqb h) hs = true <-> In h hs.
Proof.
  rewrite existsb_exists. split.
  - intros (x & Hin & Heq). apply String.eqb_eq in Heq. now subst.
  - intros Hin. exists h. split; auto. apply String.eqb_refl.
Qed.

Lemma renderable_record_get record m r :
  renderable_record record = true -> get m record = Some r ->
  renderable_result r = true.
Proof.
  unfold renderable_record. rewrite forallb_forall. intros H Hget.
  apply (H (m, r)). now apply get_Some_In.
Qed.

(** The host loop for module [m]: it returns; only [out[m]] changes, and
    only by being rebound to the "Entry" of a host; [vuln_hosts] collects
    the hosts that contain [m], [raw_results] those that have a "raw". *)
Lemma module_hosts_loop_spec m results : forall out raws hosts,
  renderable results = true ->
  exists out' raws' hosts',
    module_hosts_loop m results (out, raws, hosts) = Ok (out', raws', hosts')
    /\ (forall k, k <> m -> get k out' = get k out)
    /\ get m out' = match last_entry m results with
                    | Some c => Some (CaseInsensitive c)
                    | None => get m out
                    end
    /\ (forall h, In h hosts' <->
                  In h hosts \/
                  exists record, In (h, record) results /\
                                 mem m record = true)
    /\ (forall h, In h (keys raws') <->
                  In h (keys raws) \/
                  exists record r raw,
                    In (h, record) results /\ get m record = Some r /\
                    get "raw" r = Some raw).
Proof.
  induction results as [|[h0 record0] results IH]; intros out raws hosts Hok.
  - exists out, raws, hosts. simpl. repeat split; auto.
    + intros [H | (record & [] & _)]; auto.
    + intros [H | (record & r & raw & [] & _)]; auto.
  - simpl in Hok. apply andb_true_iff in Hok. destruct Hok as [Hr0 Hok].
    simpl. destruct (get m record0) as [r|] eqn:Em.
    + pose proof (renderable_record_get _ _ Hr0 Em) as Hr.
      assert (Hraw : exists raws1,
                 match get "raw" r with
                 | Some raw => c <- copy raw ;; Ok (set h0 c raws)
                 | None => Ok raws
                 end = Ok raws1 /\
                 forall h, In h (keys raws1) <->
                           In h (keys raws) \/
                           (h = h0 /\ get "raw" r <> None)).
      { destruct (get "raw" r) as [raw|] eqn:Eraw.
        - rewrite (renderable_result_raw _ Hr Eraw). simpl.
          eexists. split; [reflexivity|]. intros h.
          rewrite In_keys_set. split; [intros [->|H]|intros [H|[-> _]]];
            auto. right. split; auto. discriminate.
        - exists raws. split; auto. intros h. split; auto.
          intros [H|[_ H]]; auto. congruence. }
      destruct Hraw as (raws1 & -> & Hraws1). simpl.
      assert (Hout : exists out1,
                 match get "Entry" r with
                 | Some e =>
                     c <- CaseInsensitiveDict_of e ;;
                     Ok (set m (CaseInsensitive c) out)
                 | None => Ok out
                 end = Ok out1 /\
                 (forall k, k <> m -> get k out1 = get k out) /\
                 get m out1 =
                 match get "Entry" r with
                 | Some e =>
                     match CaseInsensitiveDict_of e with
                     | Ok c => Some (CaseInsensitive c)
                     | Raise _ => get m out
                     end
                 | None => get m out
                 end).
      { destruct (get "Entry" r) as [e|] eqn:Ee.
        - destruct (renderable_result_entry _ Hr Ee) as (c & Hc).
          rewrite Hc. simpl. eexists. split; [reflexivity|]. split.
          + intros k Hk. apply get_set_other. congruence.
          + apply get_set_same.
        - exists out. auto. }
      destruct Hout as (out1 & -> & Hother1 & Hm1). simpl.
      match goal with
      | |- context [module_hosts_loop m results (out1, raws1, ?hs)] =>
          destruct (IH out1 raws1 hs Hok)
            as (out' & raws' & hosts' & Hrun & Hother & Hm & Hhosts & Hraws);
          assert (Hhs : forall h, In h hs <-> In h hosts \/ h = h0)
      end.
      { intros h. destruct (existsb (String.eqb h0) hosts) eqn:E.
        - apply existsb_eqb_In in E. split; auto.
          intros [H| ->]; auto.
        - rewrite in_app_iff. simpl. intuition congruence. }
      exists out', raws', hosts'. split; [exact Hrun|]. split; [|split; [|split]].
      * intros k Hk. now rewrite Hother, Hother1.
      * rewrite Hm. destruct (last_entry m results); auto.
        rewrite Hm1. destruct (get "Entry" r) as [e|]; auto.
        now destruct (CaseInsensitiveDict_of e).
      * intros h. rewrite Hhosts, Hhs. split.
        -- intros [[H| ->]|(record & Hin & Hmem)]; auto.
           ++ right. exists record0. split; [now left|].
              unfold mem. now rewrite Em.
           ++ right. exists record. split; [now right|auto].
        -- intros [H|(record & [[= <- <-]|Hin] & Hmem)]; auto.
           right. eauto.
      * intros h. rewrite Hraws, Hraws1. split.
        -- intros [[H|[-> Hr']]|(record & r' & raw & Hin & H1 & H2)]; auto.
           ++ right. destruct (get "raw" r) as [raw|] eqn:Eraw;
                [|congruence].
              exists record0, r, raw. repeat split; auto; now left.
           ++ right. exists record, r', raw. repeat split; auto; now right.
        -- intros [H|(record & r' & raw & [[= <- <-]|Hin] & H1 & H2)]; auto.
           ++ left. right. split; auto. rewrite Em in H1.
              injection H1 as <-. congruence.
           ++ right. eauto 6.
    + simpl.
      destruct (IH out raws hosts Hok)
        as (out' & raws' & hosts' & Hrun & Hother & Hm & Hhosts & Hraws).
      exists out', raws', hosts'. split; [exact Hrun|]. split; [|split; [|split]].
      * exact Hother.
      * rewrite Hm. now destruct (last_entry m results).
      * intros h. rewrite Hhosts. split.
        -- intros [H|(record & Hin & Hmem)]; auto.
           right. exists record. split; [now right|auto].
        -- intros [H|(record & [[= <- <-]|Hin] & Hmem)]; auto.
           ++ unfold mem in Hmem. rewrite Em in Hmem. discriminate.
           ++ right. eauto.
      * intros h. rewrite Hraws. split.
        -- intros [H|(record & r' & raw & Hin & H1 & H2)]; auto.
           right. exists record, r', raw. repeat split; auto; now right.
        -- intros [H|(record & r' & raw & [[= <- <-]|Hin] & H1 & H2)]; auto.
           ++ congruence.
           ++ right. eauto 6.
Qed.

(** *** Case-insensitive dictionaries *)

Lemma NoDup_keys_set (V : Type) k (v : V) d :
  NoDup (keys d) -> NoDup (keys (set k v d)).
Proof.
  intros Hnd. rewrite keys_set. destruct (mem k d) eqn:E; auto.
  apply NoDup_app; auto.
  - repeat constructor. simpl. tauto.
  - intros x Hin [<-|[]]. apply mem_true_iff in Hin. congruence.
Qed.

Lemma set_not_nil (V : Type) k (v : V) d : set k v d <> [].
Proof.
  destruct d as [|[k' v'] d]; simpl; [discriminate|].
  destruct (String.eqb k k'); discriminate.
Qed.

Lemma NoDup_keys_of_dict (V : Type) (data : dict V) :
  NoDup (keys (CaseInsensitiveDict.of_dict data)).
Proof.
  unfold CaseInsensitiveDict.of_dict.
  enough (H : forall s : dict (string * V),
             NoDup (keys s) ->
             NoDup (keys (fold_left
                            (fun s kv => CaseInsensitiveDict.setitem
                                           (fst kv) (snd kv) s) data s)))
    by (apply H; constructor).
  induction data as [|[k v] data IH]; intros s Hs; simpl; auto.
  apply IH. now apply NoDup_keys_set.
Qed.

(** Looking a key up after [CaseInsensitiveDict(data)]: the last entry of
    [data] whose key equals it up to case. *)
Lemma get_of_dict (V : Type) (data : dict V) k :
  CaseInsensitiveDict.get k (CaseInsensitiveDict.of_dict data) =
  last_ci k data.
Proof.
  unfold CaseInsensitiveDict.of_dict, CaseInsensitiveDict.get.
  enough (H : forall s,
             option_map snd
               (get (CaseInsensitiveDict.lower k)
                  (fold_left
                     (fun s kv => CaseInsensitiveDict.setitem (fst kv)
                                    (snd kv) s) data s)) =
             match last_ci k data with
             | Some v => Some v
             | None => option_map snd (get (CaseInsensitiveDict.lower k) s)
             end).
  { rewrite H. simpl. now destruct (last_ci k data). }
  induction data as [|[k' v] data IH]; intros s; simpl; auto.
  rewrite IH. destruct (last_ci k data); auto.
  unfold CaseInsensitiveDict.setitem.
  destruct (String.eqb (CaseInsensitiveDict.lower k')
              (CaseInsensitiveDict.lower k)) eqn:E.
  - apply String.eqb_eq in E. rewrite <- E. now rewrite get_set_same.
  - apply String.eqb_neq in E. now rewrite get_set_other.
Qed.

Lemma last_ci_map (V W : Type) (f : V -> W) k (d : dict V) :
  last_ci k (map (fun kv => (fst kv, f (snd kv))) d) =
  option_map f (last_ci k d).
Proof.
  induction d as [|[k' v] d IH]; simpl; auto.
  rewrite IH. destruct (last_ci k d); simpl; auto.
  now destruct (String.eqb _ _).
Qed.

Lemma CaseInsensitiveDict_of_NoDup e c :
  CaseInsensitiveDict_of e = Ok c -> NoDup (keys c).
Proof.
  destruct e; simpl; try discriminate; intros [= <-].
  - constructor.
  - apply NoDup_keys_of_dict.
Qed.

(** *** Entries of the view *)

Lemma entry_get_setitem_same k f e :
  entry_get k (entry_setitem k f e) = Some f.
Proof.
  destruct e; simpl.
  - apply get_set_same.
  - unfold CaseInsensitiveDict.get, CaseInsensitiveDict.setitem.
    now rewrite get_set_same.
Qed.

Lemma entry_get_setitem_other k k' f e :
  CaseInsensitiveDict.lower k <> CaseInsensitiveDict.lower k' ->
  entry_get k' (entry_setitem k f e) = entry_get k' e.
Proof.
  intros Hne. destruct e; simpl.
  - apply get_set_other. congruence.
  - unfold CaseInsensitiveDict.get, CaseInsensitiveDict.setitem.
    now rewrite get_set_other.
Qed.

Lemma entry_len_setitem k f e : Nat.eqb (entry_len (entry_setitem k f e)) 0 = false.
Proof.
  apply Nat.eqb_neq.
  destruct e; simpl; intros H; apply length_zero_iff_nil in H;
    now apply set_not_nil in H.
Qed.

Lemma last_entry_NoDup m results c :
  last_entry m results = Some c -> NoDup (keys c).
Proof.
  induction results as [|[h record] results IH]; simpl; [discriminate|].
  destruct (last_entry m results); [intros [= <-]; auto|].
  destruct (get m record) as [r|]; [|discriminate].
  destruct (get "Entry" r) as [e|]; [|discriminate].
  destruct (CaseInsensitiveDict_of e) eqn:E; [|discriminate].
  intros [= <-]. eapply CaseInsensitiveDict_of_NoDup; eauto.
Qed.

Lemma last_entry_absent m results :
  (forall h record, In (h, record) results -> mem m record = false) ->
  last_entry m results = None.
Proof.
  induction results as [|[h record] results IH]; simpl; auto.
  intros Hno. rewrite IH by (intros; eapply Hno; right; eauto).
  specialize (Hno h record (or_introl eq_refl)). unfold mem in Hno.
  now destruct (get m record).
Qed.

(** *** One module *)

Lemma module_step_spec results m out :
  renderable results = true ->
  exists out',
    module_step results m out = Ok out' /\
    (forall k, k <> m -> get k out' = get k out) /\
    ((forall h record, In (h, record) results -> mem m record = false) ->
     get m out' = match get m out with
                  | Some e => if Nat.eqb (entry_len e) 0 then None else Some e
                  | None => None
                  end) /\
    ((exists h record, In (h, record) results /\ mem m record = true) ->
     exists e hs,
       get m out' = Some e /\
       entry_get "hosts" e = Some (Hosts hs) /\
       hs <> [] /\
       (forall h, In h hs <->
                  exists record, In (h, record) results /\
                                 mem m record = true) /\
       (all_have_raw results ->
        exists raws,
          entry_get "raw" e = Some (Pformat (VDict raws)) /\ raws <> []) /\
       (forall c, last_entry m results = Some c ->
          exists s,
            e = CaseInsensitive s /\ NoDup (keys s) /\
            forall k,
              CaseInsensitiveDict.lower k <> "raw" ->
              CaseInsensitiveDict.lower k <> "hosts" ->
              CaseInsensitiveDict.get k s = CaseInsensitiveDict.get k c)).
Proof.
  intros Hok. unfold module_step.
  set (out0 := if mem m out then out else set m (Plain []) out).
  set (e0 := match get m out with Some e => e | None => Plain [] end).
  assert (Hm0 : get m out0 = Some e0).
  { unfold out0, e0, mem. destruct (get m out) eqn:E; auto.
    apply get_set_same. }
  assert (Hother0 : forall k, k <> m -> get k out0 = get k out).
  { intros k Hk. unfold out0. destruct (mem m out); auto.
    apply get_set_other. congruence. }
  destruct (module_hosts_loop_spec m results out0 [] [] Hok)
    as (out1 & raws & hosts & Hrun & Hother & Hm & Hhosts & Hraws).
  unfold_dict_types. rewrite Hrun. cbn [bind].
  set (e1 := match last_entry m results with
             | Some c => CaseInsensitive c
             | None => e0
             end).
  assert (Hm1 : get m out1 = Some e1).
  { rewrite Hm. unfold e1. now destruct (last_entry m results). }
  assert (Hraw_host : forall h, In h (keys raws) -> In h hosts).
  { intros h Hin. apply Hraws in Hin.
    destruct Hin as [[]|(record & r & raw & H1 & H2 & _)].
    apply Hhosts. right. exists record. split; auto.
    unfold mem. now rewrite H2. }
  destruct hosts as [|h1 hosts].
  - assert (Hnone : forall h record,
               In (h, record) results -> mem m record = false).
    { intros h record Hin. destruct (mem m record) eqn:E; auto.
      exfalso. apply (proj2 (Hhosts h)). right. eauto. }
    assert (Hraws0 : raws = []).
    { destruct raws as [|[hr v] raws]; auto.
      exfalso. apply (Hraw_host hr). simpl. auto. }
    subst raws. cbn [bind]. unfold getitem. rewrite Hm1. cbn [bind].
    assert (He1 : e1 = e0).
    { unfold e1. now rewrite (last_entry_absent _ _ Hnone). }
    rewrite He1.
    destruct (Nat.eqb (entry_len e0) 0) eqn:Elen.
    + exists (remove m out1). split.
      { unfold del, mem. now rewrite Hm1. }
      split; [|split].
      * intros k Hk. rewrite get_remove_other by congruence.
        now rewrite Hother, Hother0.
      * intros _. rewrite get_remove_same. unfold e0 in Elen.
        destruct (get m out); auto. now rewrite Elen.
      * intros (h & record & Hin & Hmem). rewrite (Hnone _ _ Hin) in Hmem.
        discriminate.
    + exists out1. split; [reflexivity|]. split; [|split].
      * intros k Hk. now rewrite Hother, Hother0.
      * intros _. rewrite Hm1, He1. unfold e0 in *.
        destruct (get m out); [now rewrite Elen|discriminate].
      * intros (h & record & Hin & Hmem). rewrite (Hnone _ _ Hin) in Hmem.
        discriminate.
  - set (hs := h1 :: hosts) in *.
    set (e2 := match raws with
               | [] => e1
               | _ => entry_setitem "raw" (Pformat (VDict raws)) e1
               end).
    set (out2 := match raws with [] => out1 | _ => set m e2 out1 end).
    assert (Hstage2 :
              match raws with
              | [] => Ok out1
              | _ :: _ =>
                  e <- getitem m out1 ;;
                  Ok (set m (entry_setitem "raw" (Pformat (VDict raws)) e)
                        out1)
              end = Ok out2).
    { unfold out2, e2, getitem. rewrite Hm1. now destruct raws. }
    unfold_dict_types. rewrite Hstage2. cbn [bind].
    assert (Hm2 : get m out2 = Some e2).
    { unfold out2, e2. destruct raws; auto. apply get_set_same. }
    assert (Hother2 : forall k, k <> m -> get k out2 = get k out1).
    { intros k Hk. unfold out2. destruct raws; auto.
      apply get_set_other. congruence. }
    set (e3 := entry_setitem "hosts" (Hosts hs) e2).
    unfold getitem. rewrite Hm2. cbn [bind].
    rewrite get_set_same. cbn [bind]. fold e3.
    assert (Hlen : Nat.eqb (entry_len e3) 0 = false)
      by apply entry_len_setitem.
    rewrite Hlen.
    eexists. split; [reflexivity|]. split; [|split].
    + intros k Hk. rewrite get_set_other by congruence.
      now rewrite Hother2, Hother, Hother0.
    + intros Hnone. exfalso.
      destruct (proj1 (Hhosts h1) (or_introl eq_refl))
        as [[]|(record & Hin & Hmem)].
      rewrite (Hnone _ _ Hin) in Hmem. discriminate.
    + intros _. exists e3, hs. split; [apply get_set_same|].
      split; [apply entry_get_setitem_same|].
      split; [discriminate|]. split; [|split].
      * intros h. rewrite Hhosts. simpl. tauto.
      * intros Hall.
        destruct (proj1 (Hhosts h1) (or_introl eq_refl))
          as [[]|(record & Hin & Hmem)].
        unfold mem in Hmem. destruct (get m record) as [r|] eqn:Er;
          [|discriminate].
        assert (Hne : raws <> []).
        { intros ->. pose proof (Hall _ _ _ _ Hin (get_Some_In _ _ Er)) as Hr.
          destruct (get "raw" r) as [raw|] eqn:Eraw; [|congruence].
          apply (proj2 (Hraws h1)). right. eauto 6. }
        exists raws. split; auto. unfold e3.
        rewrite entry_get_setitem_other by (vm_compute; discriminate).
        unfold e2. destruct raws; [congruence|].
        apply entry_get_setitem_same.
      * intros c Hc. unfold e3, e2, e1. rewrite Hc.
        pose proof (last_entry_NoDup _ _ Hc) as Hnd.
        destruct raws as [|x raws]; simpl; eexists;
          (split; [reflexivity|]); split;
          unfold CaseInsensitiveDict.setitem;
          repeat apply NoDup_keys_set; auto;
          intros k Hk1 Hk2; unfold CaseInsensitiveDict.get;
          rewrite !get_set_other; auto.
Qed.

(** *** The whole formatter *)

Lemma some_host_contains_dec m (results : dict (dict (dict value))) :
  {exists h record, In (h, record) results /\ mem m record = true} +
  {forall h record, In (h, record) results -> mem m record = false}.
Proof.
  destruct (existsb (contains m) results) eqn:E.
  - left. apply existsb_exists in E. destruct E as ([h record] & Hin & Hc).
    eauto.
  - right. intros h record Hin.
    destruct (mem m record) eqn:Em; auto.
    assert (existsb (contains m) results = true); [|congruence].
    apply existsb_exists. exists (h, record). auto.
Qed.

Lemma modules_loop_spec results modules : forall out,
  renderable results = true ->
  exists out',
    modules_loop results modules out = Ok out' /\
    (forall m, ~ In m modules -> get m out' = get m out) /\
    (forall m, In m modules ->
       (exists h record, In (h, record) results /\ mem m record = true) ->
       exists e, get m out' = Some e /\ module_entry_spec results m e) /\
    (forall m e, get m out' = Some e ->
       get m out = Some e \/
       (In m modules /\ module_entry_spec results m e)).
Proof.
  induction modules as [|m0 modules IH]; intros out Hok.
  - exists out. simpl. repeat split; auto. intros m [].
  - simpl.
    destruct (module_step_spec results m0 out Hok)
      as (out1 & Hstep & Hother & Hnone & Hsome).
    rewrite Hstep. cbn [bind].
    destruct (IH out1 Hok) as (out' & Hrun & Hout & Hin & Hback).
    exists out'. split; [exact Hrun|]. split; [|split].
    + intros m Hm. rewrite Hout by tauto. apply Hother. intros ->. tauto.
    + intros m Hm Hhost.
      destruct (in_dec string_dec m modules) as [Hi|Hn]; [now apply Hin|].
      destruct Hm as [->|Hm]; [|contradiction].
      destruct (Hsome Hhost) as (e & hs & He & Hspec).
      exists e. split; [now rewrite Hout|]. exists hs. exact Hspec.
    + intros m e He. destruct (Hback m e He) as [H1|[H1 H2]];
        [|right; split; auto].
      destruct (string_dec m m0) as [->|Hne];
        [|left; now rewrite <- Hother].
      destruct (some_host_contains_dec m0 results) as [Hhost|Hno].
      * destruct (Hsome Hhost) as (e' & hs & He' & Hspec).
        rewrite H1 in He'. injection He' as <-.
        right. split; [now left|]. exists hs. exact Hspec.
      * left. rewrite (Hnone Hno) in H1.
        destruct (get m0 out) as [e0|]; [|discriminate].
        destruct (Nat.eqb (entry_len e0) 0); [discriminate|]. exact H1.
Qed.

(** Whatever the shapes allow, the formatter returns. *)
Lemma modules_report_formatter_total results modules :
  renderable results = true ->
  exists out, modules_report_formatter results modules = Ok out.
Proof.
  intros Hok. destruct (modules_loop_spec results modules [] Hok)
    as (out & Hrun & _). now exists out.
Qed.

(** The formatter on any tree of accepted shapes: every entry of the view
    carries a non-empty "hosts" list naming hosts that contain the module,
    a requested module that some host contains is present, and when every
    module result has a "raw" key every entry carries the "raw" text of a
    non-empty mapping. *)
Lemma modules_view_entries_carry_hosts results modules :
  renderable results = true ->
  exists out,
    modules_report_formatter results modules = Ok out /\
    (forall m e, get m out = Some e ->
       exists hs,
         entry_get "hosts" e = Some (Hosts hs) /\ hs <> [] /\
         forall h, In h hs ->
                   exists record, In (h, record) results /\
                                  mem m record = true) /\
    (forall m, In m modules ->
       (exists h record, In (h, record) results /\ mem m record = true) ->
       get m out <> None) /\
    (all_have_raw results ->
     forall m e, get m out = Some e ->
       exists raws,
         entry_get "raw" e = Some (Pformat (VDict raws)) /\ raws <> []).
Proof.
  intros Hok. unfold modules_report_formatter.
  destruct (modules_loop_spec results modules [] Hok)
    as (out & Hrun & _ & Hin & Hback).
  exists out. split; [exact Hrun|]. split; [|split].
  - intros m e He. destruct (Hback m e He) as [H|[_ Hspec]];
      [discriminate|].
    destruct Hspec as (hs & H1 & H2 & H3 & _).
    exists hs. repeat split; auto. intros h Hh. now apply H3.
  - intros m Hm Hhost. destruct (Hin m Hm Hhost) as (e & He & _).
    congruence.
  - intros Hraw m e He. destruct (Hback m e He) as [H|[_ Hspec]];
      [discriminate|].
    destruct Hspec as (hs & _ & _ & _ & H4 & _). auto.
Qed.

Lemma last_entry_no_entry m results :
  (forall h record r, In (h, record) results -> get m record = Some r ->
                      get "Entry" r = None) ->
  last_entry m results = None.
Proof.
  induction results as [|[h record] results IH]; simpl; auto.
  intros Hno. rewrite IH by (intros; eapply Hno; eauto; right; eauto).
  unfold_dict_types.
  destruct (get m record) as [r|] eqn:Er; auto.
  now rewrite (Hno h record r (or_introl eq_refl) Er).
Qed.

Lemma last_entry_decompose m pre h record post r d :
  get m record = Some r ->
  get "Entry" r = Some (VDict d) ->
  (forall h' record' r', In (h', record') post -> get m record' = Some r' ->
                         get "Entry" r' = None) ->
  last_entry m (pre ++ (h, record) :: post) =
  Some (CaseInsensitiveDict.of_dict
          (map (fun kv => (fst kv, Finding (snd kv))) d)).
Proof.
  intros Hr He Hpost. induction pre as [|[h0 record0] pre IH]; simpl.
  - rewrite (last_entry_no_entry _ _ Hpost).
    unfold_dict_types. now rewrite Hr, He.
  - now rewrite IH.
Qed.

(** Writing "Foo" and then "foo" leaves a single field, the later one. *)
Example foo_written_twice (x y : value) :
  CaseInsensitiveDict_of (VDict [("Foo", x); ("foo", y)]) =
  Ok [("foo", ("foo", Finding y))].
Proof. reflexivity. Qed.

(** C1, as stated, fails: the view of the scenario has no entry under "m1"
    that equals the expected dictionary. *)
Lemma C1_scenario_entry_differs :
  ~ (exists out e,
        run MODULES scenario_input = Ok (ModulesView out) /\
        get "m1" out = Some e /\
        entry_eq_dict e scenario_expected).
Proof.
  intros (out & e & Hrun & Hget & Heq). vm_compute in Hrun.
  injection Hrun as <-. vm_compute in Hget. injection Hget as <-.
  specialize (Heq "risk"). discriminate Heq.
Qed.

(** C1, amended: for the scenario input and mode MODULES the view maps
    "m1" to exactly the "raw" text of {'h1': {'other': 1}} and the hosts
    ["h1"]; the field "risk" of the mitigation is not a field of the entry.
    Finding fields are copied from an "Entry" mapping only: with the same
    fields under "Entry" inside the mitigation, "risk" is a top-level field
    of the entry. *)
Theorem C1_scenario_view :
  run MODULES scenario_input =
    Ok (ModulesView
          [("m1",
            Plain [("raw",
                    Pformat (VDict [("h1", VDict [("other", VInt 1)])]));
                   ("hosts", Hosts ["h1"])])]) /\
  run MODULES scenario_input_with_entry =
    Ok (ModulesView
          [("m1",
            CaseInsensitive
              [("risk", ("risk", Finding (VStr "high")));
               ("raw", ("raw",
                        Pformat (VDict [("h1", VDict [("other", VInt 1)])])));
               ("hosts", ("hosts", Hosts ["h1"]))])]).
Proof. split; reflexivity. Qed.

End ModulesView.

(** * Further properties *)

(** ** Result extraction, continued *)

Section ExtractionMore.
Import PyDict PyDictFacts Report.

Lemma extract_host_unwrapped v modules v' modules' :
  extract_host v modules = (v', Ok modules') -> v' = unwrapped v.
Proof.
  unfold extract_host, unwrapped.
  destruct v as [| | | | |record]; try discriminate.
  destruct (get "loaded_modules" record) as [lm|]; [|now intros [= <- _]].
  destruct lm as [| | | | |loaded]; simpl; try discriminate.
  rewrite get_remove_other by discriminate.
  destruct (get "results" record); [|discriminate]. now intros [= <- _].
Qed.

(** X1: Extraction never adds, drops or reorders a host, whether it returns
    or raises. *)
Theorem extract_results_keeps_hosts res :
  keys (fst (extract_results res)) = keys res.
Proof.
  unfold extract_results. generalize (@nil (string * value)) as modules.
  induction res as [|[h v] res IH]; intros modules; simpl; auto.
  destruct (extract_host v modules) as [v' [m'|e]]; simpl; auto.
  specialize (IH m'). destruct (extract_loop res m') as [rest' r].
  simpl in *. now rewrite IH.
Qed.

(** X2: When extraction returns, every envelope has been replaced by the
    value under its "results" key and every other host value is as it
    was. *)
Theorem extract_results_unwraps res res' cat :
  extract_results res = (res', Ok cat) ->
  res' = map (fun hv => (fst hv, unwrapped (snd hv))) res.
Proof.
  unfold extract_results. generalize (@nil (string * value)) as modules.
  revert res' cat.
  induction res as [|[h v] res IH]; intros res' cat modules; simpl.
  - now intros [= <- _].
  - destruct (extract_host v modules) as [v' [m'|e]] eqn:Eh;
      [|discriminate].
    destruct (extract_loop res m') as [rest' r] eqn:El.
    intros [= <- ->]. apply extract_host_unwrapped in Eh. subst v'.
    now rewrite (IH _ _ _ El).
Qed.

Lemma extract_results_unwraps_witness :
  [("h1", VDict []); ("h2", VDict [])] =
  map (fun hv => (fst hv, unwrapped (snd hv))) two_hosts_one_module.
Proof.
  apply (@extract_results_unwraps two_hosts_one_module
           [("h1", VDict []); ("h2", VDict [])] [("m", VInt 2)]).
  reflexivity.
Defined.

Lemma In_keys_update (V : Type) k (other : dict V) : forall d,
  In k (keys (update d other)) <-> In k (keys d) \/ In k (keys other).
Proof.
  unfold update.
  induction other as [|[k' v'] other IH]; intros d; simpl; [tauto|].
  rewrite IH, In_keys_set. simpl. intuition congruence.
Qed.

Lemma extract_loop_catalogue_keys k res : forall modules res' cat,
  extract_loop res modules = (res', Ok cat) ->
  (In k (keys cat) <->
   In k (keys modules) \/
   exists h v, In (h, v) res /\ declares k v = true).
Proof.
  induction res as [|[h v] res IH]; intros modules res' cat; simpl.
  - intros [= _ <-]. split; auto. intros [H|(h & v & [] & _)]; auto.
  - destruct (extract_host v modules) as [v' [m'|e]] eqn:Eh;
      [|discriminate].
    destruct (extract_loop res m') as [rest' r] eqn:El.
    intros [= _ ->]. rewrite (IH _ _ _ El).
    apply extract_host_catalogue in Eh. subst m'. unfold declares at 2.
    assert (Hhead : In k (keys match loaded_modules_of v with
                                | Some loaded => update modules loaded
                                | None => modules
                                end) <->
                    In k (keys modules) \/ declares k v = true).
    { unfold declares. destruct (loaded_modules_of v) as [loaded|].
      - rewrite In_keys_update, mem_true_iff. tauto.
      - split; auto. intros [H|H]; auto. discriminate. }
    rewrite Hhead. split.
    + intros [[H|H]|(h' & v'' & Hin & Hd)]; auto.
      * right. exists h, v. auto.
      * right. exists h', v''. auto.
    + intros [H|(h' & v'' & [[= <- <-]|Hin] & Hd)]; auto.
      right. eauto.
Qed.

(** X3: When extraction returns, the catalogue lists exactly the module
    identifiers that some host declares under "loaded_modules". *)
Theorem extract_results_catalogue_keys k res res' cat :
  extract_results res = (res', Ok cat) ->
  (In k (keys cat) <-> exists h v, In (h, v) res /\ declares k v = true).
Proof.
  intros H. rewrite (extract_loop_catalogue_keys k _ _ H). simpl. tauto.
Qed.

Lemma extract_results_catalogue_keys_witness :
  In "m" (keys [("m", VInt 2)]) <->
  exists h v, In (h, v) two_hosts_one_module /\ declares "m" v = true.
Proof.
  apply (@extract_results_catalogue_keys "m" two_hosts_one_module
           [("h1", VDict []); ("h2", VDict [])] [("m", VInt 2)]).
  reflexivity.
Defined.

(** X4: A tree in which no host record has "loaded_modules" is returned as it
    is, with an empty catalogue: such hosts are skipped, not rejected. *)
Theorem extract_results_without_envelope res :
  Forall (fun hv => plain_record (snd hv)) res ->
  extract_results res = (res, Ok []).
Proof.
  intros Hall. unfold extract_results.
  generalize (@nil (string * value)) as modules.
  induction Hall as [|[h v] res (record & Hv & Hno) _ IH]; intros modules;
    simpl; auto.
  simpl in Hv. subst v. simpl. rewrite Hno. now rewrite IH.
Qed.

Lemma extract_results_without_envelope_witness :
  extract_results [("h1", VDict [("m1", VDict [("x", VInt 1)])]);
                   ("h2", VDict [])] =
  ([("h1", VDict [("m1", VDict [("x", VInt 1)])]); ("h2", VDict [])],
   Ok []).
Proof.
  apply (@extract_results_without_envelope
           [("h1", VDict [("m1", VDict [("x", VInt 1)])]);
            ("h2", VDict [])]).
  repeat constructor; eexists; split; reflexivity.
Defined.

(** X5: A "loaded_modules" that is None, a boolean, a number or a string has
    no [copy]: extraction raises AttributeError at that host before it
    deletes anything from the record. *)
Theorem extract_results_uncopyable_envelope pre pre' cat h record lm post :
  extract_loop pre [] = (pre', Ok cat) ->
  get "loaded_modules" record = Some lm ->
  copyable lm = false ->
  extract_results (pre ++ (h, VDict record) :: post) =
    (pre' ++ (h, VDict record) :: post, Raise AttributeError).
Proof.
  intros Hpre Hlm Hcopy. unfold extract_results.
  rewrite extract_loop_app, Hpre. simpl. rewrite Hlm.
  destruct lm; try discriminate; reflexivity.
Qed.

Lemma extract_results_uncopyable_envelope_witness :
  extract_results
    [("h1", VDict [("loaded_modules", VDict [("m", VInt 1)]);
                   ("results", VDict [])]);
     ("h2", VDict [("loaded_modules", VNone); ("results", VDict [])])] =
    ([("h1", VDict []);
      ("h2", VDict [("loaded_modules", VNone); ("results", VDict [])])],
     Raise AttributeError).
Proof.
  apply (@extract_results_uncopyable_envelope
           [("h1", VDict [("loaded_modules", VDict [("m", VInt 1)]);
                          ("results", VDict [])])]
           [("h1", VDict [])] [("m", VInt 1)] "h2"
           [("loaded_modules", VNone); ("results", VDict [])] VNone []);
    reflexivity.
Defined.

End ExtractionMore.

(** ** Compliance flattening, continued *)

Section FlatteningMore.
Import PyDict PyDictFacts Report.

Lemma flatten_compliance_selected cid results modules :
  selected_compliance_module modules = Some cid ->
  mem cid modules = true /\
  flatten_compliance results modules =
  ('(results', modules1) <- flatten_hosts cid results modules ;;
   modules2 <- del cid modules1 ;; Ok (results', modules2)).
Proof.
  unfold selected_compliance_module, flatten_compliance.
  destruct (mem "compare_one" modules) eqn:E1.
  - intros [= <-]. auto.
  - destruct (mem "compare_many" modules) eqn:E2; [|discriminate].
    intros [= <-]. auto.
Qed.

Lemma flatten_hosts_absent cid pre h record post : forall modules,
  Forall (fun hv => has_sheets cid (snd hv)) pre ->
  get cid record = None ->
  flatten_hosts cid (pre ++ (h, VDict record) :: post) modules =
  Raise (KeyError cid).
Proof.
  induction pre as [|[h0 v0] pre IH]; intros modules Hall Hget; simpl.
  - now rewrite flatten_host_absent.
  - inversion Hall as [|? ? Hv Hall']; subst. simpl in Hv.
    destruct Hv as (record0 & sheets & -> & Hget0 & _ & Hmap).
    rewrite (@flatten_host_spec cid record0 sheets modules Hget0 Hmap).
    cbn [bind]. now rewrite IH.
Qed.

(** X6: The first host that has no key for the selected compliance module
    makes the flattening raise KeyError for that module, whatever the
    hosts after it hold: the sheet loop is guarded, the deletion is not. *)
Theorem flatten_compliance_absent_raises cid pre h record post modules :
  selected_compliance_module modules = Some cid ->
  Forall (fun hv => has_sheets cid (snd hv)) pre ->
  get cid record = None ->
  flatten_compliance (pre ++ (h, VDict record) :: post) modules =
  Raise (KeyError cid).
Proof.
  intros Hsel Hall Hget.
  destruct (@flatten_compliance_selected cid
              (pre ++ (h, VDict record) :: post) modules Hsel) as [_ ->].
  now rewrite flatten_hosts_absent.
Qed.

Lemma flatten_compliance_absent_raises_witness :
  flatten_compliance
    (compare_one_tree ++
     [("h2", VDict [("m1", VDict [("x", VInt 1)])]); ("h3", VNone)])
    [("compare_one", VDict [])] =
  Raise (KeyError "compare_one").
Proof.
  apply (@flatten_compliance_absent_raises "compare_one" compare_one_tree
           "h2" [("m1", VDict [("x", VInt 1)])] [("h3", VNone)]
           [("compare_one", VDict [])]).
  - reflexivity.
  - constructor; [|constructor].
    exists [("compare_one", VDict compare_one_sheets)], compare_one_sheets.
    split; [reflexivity|]. split; [reflexivity|]. split.
    + repeat constructor; simpl; intuition discriminate.
    + repeat constructor.
  - reflexivity.
Defined.

Lemma In_keys_synthetic cid sheets k :
  In k (keys (synthetic_modules cid sheets)) ->
  exists s, k = synthetic cid s.
Proof.
  unfold synthetic_modules, keys. rewrite map_map. simpl.
  intros Hin. apply in_map_iff in Hin. destruct Hin as (sv & <- & _).
  eauto.
Qed.

Lemma compare_many_not_synthetic s :
  "compare_many" <> synthetic "compare_one" s.
Proof. unfold synthetic. simpl. discriminate. Qed.

(** X7: "compare_one" takes precedence: when the catalogue lists it, only its
    sheets are flattened; whatever a host holds under "compare_many", and
    the catalogue entry of "compare_many", are left as they were. *)
Theorem flatten_compliance_prefers_compare_one results modules :
  mem "compare_one" modules = true ->
  Forall (fun hv => has_sheets "compare_one" (snd hv)) results ->
  exists results' modules',
    flatten_compliance results modules = Ok (results', modules') /\
    get "compare_many" modules' = get "compare_many" modules /\
    Forall2 (fun hv hv' =>
               fst hv' = fst hv /\
               exists record record',
                 snd hv = VDict record /\ snd hv' = VDict record' /\
                 get "compare_many" record' = get "compare_many" record)
      results results'.
Proof.
  intros Hmem Hall.
  assert (Hsel : selected_compliance_module modules = Some "compare_one").
  { unfold selected_compliance_module. now rewrite Hmem. }
  destruct (@flatten_compliance_selected "compare_one" results modules
              Hsel) as [_ Hdef].
  destruct (@flatten_hosts_spec "compare_one" results modules Hall)
    as (results' & modules1 & Hrun & Hrel & _ & Hother).
  assert (Hcat : forall k, ~ Exists (registers "compare_one" k) results ->
                           get k modules1 = get k modules) by exact Hother.
  exists results', (remove "compare_one" modules1). split; [|split].
  - rewrite Hdef, Hrun. cbn [bind]. unfold del, mem.
    rewrite (Hcat "compare_one").
    + unfold mem in Hmem. now destruct (get "compare_one" modules).
    + intros Hex. apply Exists_exists in Hex.
      destruct Hex as (hv & _ & r & s & _ & _ & Hin).
      apply In_keys_synthetic in Hin. destruct Hin as (s' & Hs').
      symmetry in Hs'. now apply synthetic_neq in Hs'.
  - rewrite get_remove_other by discriminate. apply Hcat.
    intros Hex. apply Exists_exists in Hex.
    destruct Hex as (hv & _ & r & s & _ & _ & Hin).
    apply In_keys_synthetic in Hin. destruct Hin as (s' & Hs').
    now apply compare_many_not_synthetic in Hs'.
  - eapply Forall2_impl; [|exact Hrel].
    intros hv hv' [Hfst (record & sheets & record' & H1 & _ & H3 & _ & _ &
                         _ & _ & Hkeys)].
    split; auto. exists record, record'. repeat split; auto.
    rewrite Hkeys by discriminate.
    destruct (get "compare_many" (synthetic_modules "compare_one" sheets))
      eqn:E; auto.
    exfalso. assert (Hin : In "compare_many"
                             (keys (synthetic_modules "compare_one" sheets))).
    { apply mem_true_iff. unfold mem. now rewrite E. }
    apply In_keys_synthetic in Hin. destruct Hin as (s' & Hs').
    now apply compare_many_not_synthetic in Hs'.
Qed.

Lemma flatten_compliance_prefers_compare_one_witness :
  exists results' modules',
    flatten_compliance
      [("h1", VDict [("compare_one", VDict compare_one_sheets);
                     ("compare_many", VDict compare_one_sheets)])]
      [("compare_many", VDict []); ("compare_one", VDict [])] =
      Ok (results', modules') /\
    get "compare_many" modules' =
      get "compare_many" [("compare_many", VDict []);
                          ("compare_one", VDict [])] /\
    Forall2 (fun hv hv' =>
               fst hv' = fst hv /\
               exists record record',
                 snd hv = VDict record /\ snd hv' = VDict record' /\
                 get "compare_many" record' = get "compare_many" record)
      [("h1", VDict [("compare_one", VDict compare_one_sheets);
                     ("compare_many", VDict compare_one_sheets)])]
      results'.
Proof.
  apply (@flatten_compliance_prefers_compare_one
           [("h1", VDict [("compare_one", VDict compare_one_sheets);
                          ("compare_many", VDict compare_one_sheets)])]
           [("compare_many", VDict []); ("compare_one", VDict [])]).
  - reflexivity.
  - constructor; [|constructor].
    exists [("compare_one", VDict compare_one_sheets);
            ("compare_many", VDict compare_one_sheets)], compare_one_sheets.
    split; [reflexivity|]. split; [reflexivity|]. split.
    + repeat constructor; simpl; intuition discriminate.
    + repeat constructor.
Defined.

Lemma flatten_hosts_keys cid results : forall modules results' modules',
  flatten_hosts cid results modules = Ok (results', modules') ->
  keys results' = keys results.
Proof.
  induction results as [|[h v] results IH]; intros modules results' modules';
    simpl.
  - now intros [= <- _].
  - destruct (flatten_host cid v modules) as [[v' m1]|]; [|discriminate].
    cbn [bind].
    destruct (flatten_hosts cid results m1) as [[rest' m2]|] eqn:E;
      [|discriminate].
    cbn [bind]. intros [= <- _]. simpl. now rewrite (IH _ _ _ E).
Qed.

(** X8: Flattening never adds, drops or reorders a host. *)
Theorem flatten_compliance_keeps_hosts results modules results' modules' :
  flatten_compliance results modules = Ok (results', modules') ->
  keys results' = keys results.
Proof.
  unfold flatten_compliance.
  destruct (mem "compare_one" modules || mem "compare_many" modules);
    [|now intros [= <- _]].
  destruct (flatten_hosts _ results modules) as [[r1 m1]|] eqn:E;
    [|discriminate].
  cbn [bind]. destruct (del _ m1); [|discriminate]. cbn [bind].
  intros [= <- _]. now apply flatten_hosts_keys in E.
Qed.

Lemma flatten_compliance_keeps_hosts_witness :
  keys [("h1", VDict [("compare_one_s1",
                       VDict [("mitigation", VDict [("x", VInt 1)])])])] =
  keys compare_one_tree.
Proof.
  apply (@flatten_compliance_keeps_hosts compare_one_tree
           [("compare_one", VDict [])] _ [("compare_one_s1", VStr "")]).
  reflexivity.
Defined.

Lemma flatten_hosts_falsy cid results : forall modules,
  Forall (fun hv => has_falsy cid (snd hv)) results ->
  flatten_hosts cid results modules =
  Ok (map (fun hv => (fst hv, without_key cid (snd hv))) results, modules).
Proof.
  induction results as [|[h v] results IH]; intros modules Hall; simpl; auto.
  inversion Hall as [|? ? Hv Hall']; subst. simpl in Hv.
  destruct Hv as (record & x & -> & Hget & Hfalse).
  unfold flatten_host. simpl. rewrite Hget, Hfalse. cbn [bind].
  unfold del, mem. rewrite Hget. cbn [bind]. now rewrite IH.
Qed.

(** X9: A host whose value under the selected compliance module is falsy
    (None, an empty mapping, ...) yields no synthetic module: when every
    host is such, flattening only deletes the key from each host record
    and from the catalogue. *)
Theorem flatten_compliance_falsy cid results modules :
  selected_compliance_module modules = Some cid ->
  Forall (fun hv => has_falsy cid (snd hv)) results ->
  flatten_compliance results modules =
  Ok (map (fun hv => (fst hv, without_key cid (snd hv))) results,
      remove cid modules).
Proof.
  intros Hsel Hall.
  destruct (@flatten_compliance_selected cid results modules Hsel)
    as [Hmem ->].
  rewrite flatten_hosts_falsy by assumption. cbn [bind].
  unfold del. now rewrite Hmem.
Qed.

Lemma flatten_compliance_falsy_witness :
  flatten_compliance
    [("h1", VDict [("compare_many", VDict []); ("m1", VDict [])]);
     ("h2", VDict [("compare_many", VNone)])]
    [("m1", VStr ""); ("compare_many", VStr "")] =
  Ok ([("h1", VDict [("m1", VDict [])]); ("h2", VDict [])],
      [("m1", VStr "")]).
Proof.
  apply (@flatten_compliance_falsy "compare_many"
           [("h1", VDict [("compare_many", VDict []); ("m1", VDict [])]);
            ("h2", VDict [("compare_many", VNone)])]
           [("m1", VStr ""); ("compare_many", VStr "")]).
  - reflexivity.
  - repeat constructor; eexists; eexists; repeat split; reflexivity.
Defined.

End FlatteningMore.

(** ** Raw/finding split, continued *)

Section SplitMore.
Import PyDict PyDictFacts Report.

Lemma split_module_raw_payload d r' :
  split_module (VDict d) = Ok r' ->
  get "raw" r' = Some (VDict (remove "mitigation" d)).
Proof.
  unfold split_module.
  assert (Hraw : raw_of (VDict d) = Ok (VDict (remove "mitigation" d))).
  { unfold raw_of, mem. destruct (get "mitigation" d) eqn:E; auto.
    now rewrite remove_absent. }
  rewrite Hraw. cbn [bind].
  destruct (take_mitigations _ (VDict d)) as [cur|]; [|discriminate].
  cbn [bind]. destruct cur as [| | | | |c]; try discriminate. simpl.
  intros [= <-]. apply get_set_same.
Qed.

(** X11: Whatever the scan finds, the "raw" payload attached to a module result
    is the original result without its top-level "mitigation" key: every
    other top-level key is kept in it with its value. *)
Theorem split_raw_is_result_without_mitigation results tree h record m d :
  split_hosts results = Ok tree ->
  In (h, VDict record) results ->
  In (m, VDict d) record ->
  exists record' r',
    In (h, record') tree /\ In (m, r') record' /\
    get "raw" r' = Some (VDict (remove "mitigation" d)) /\
    get "mitigation" (remove "mitigation" d) = None /\
    forall k, k <> "mitigation" ->
              get k (remove "mitigation" d) = get k d.
Proof.
  intros Hsplit Hh Hm.
  destruct (split_hosts_In _ _ _ _ _ Hsplit Hh Hm)
    as (record' & r' & H1 & H2 & H3).
  exists record', r'. repeat split; auto.
  - now apply split_module_raw_payload.
  - apply get_remove_same.
  - intros k Hk. apply get_remove_other. congruence.
Qed.

Lemma split_raw_is_result_without_mitigation_witness :
  exists record' r',
    In ("h1", record')
      [("h1", [("m1", [("risk", VStr "high");
                       ("raw", VDict [("other", VInt 1)])])])] /\
    In ("m1", r') record' /\
    get "raw" r' =
      Some (VDict (remove "mitigation"
                     [("mitigation", VDict [("risk", VStr "high")]);
                      ("other", VInt 1)])) /\
    get "mitigation"
      (remove "mitigation"
         [("mitigation", VDict [("risk", VStr "high")]);
          ("other", VInt 1)]) = None /\
    forall k, k <> "mitigation" ->
              get k (remove "mitigation"
                       [("mitigation", VDict [("risk", VStr "high")]);
                        ("other", VInt 1)]) =
              get k [("mitigation", VDict [("risk", VStr "high")]);
                     ("other", VInt 1)].
Proof.
  apply (@split_raw_is_result_without_mitigation
           [("h1", VDict [("m1", VDict [("mitigation",
                                         VDict [("risk", VStr "high")]);
                                        ("other", VInt 1)])])]
           [("h1", [("m1", [("risk", VStr "high");
                            ("raw", VDict [("other", VInt 1)])])])]
           "h1"
           [("m1", VDict [("mitigation", VDict [("risk", VStr "high")]);
                          ("other", VInt 1)])]
           "m1"
           [("mitigation", VDict [("risk", VStr "high")]);
            ("other", VInt 1)]).
  - reflexivity.
  - simpl. auto.
  - simpl. auto.
Defined.

Lemma split_modules_keys record : forall record',
  split_modules record = Ok record' -> keys record' = keys record.
Proof.
  induction record as [|[m r] record IH]; intros record'; simpl.
  - now intros [= <-].
  - destruct (split_module r); [|discriminate]. cbn [bind].
    destruct (split_modules record) as [rest'|]; [|discriminate].
    cbn [bind]. intros [= <-]. simpl. now rewrite (IH _ eq_refl).
Qed.

(** X12: The split never adds, drops, renames or reorders a host or a module:
    the tree it returns has the hosts of its input and, under each host,
    the modules of that host's record. *)
Theorem split_hosts_keeps_hosts_and_modules results : forall tree,
  split_hosts results = Ok tree ->
  keys tree = keys results /\
  Forall2 (fun hv hr =>
             exists record,
               snd hv = VDict record /\ keys (snd hr) = keys record)
    results tree.
Proof.
  induction results as [|[h v] results IH]; intros tree; simpl.
  - intros [= <-]. split; auto.
  - destruct v as [| | | | |record]; try discriminate. cbn [as_dict bind].
    destruct (split_modules record) as [record'|] eqn:E; [|discriminate].
    cbn [bind]. destruct (split_hosts results) as [rest'|]; [|discriminate].
    cbn [bind]. intros [= <-]. destruct (IH _ eq_refl) as [IH1 IH2].
    split.
    + simpl. now rewrite IH1.
    + constructor; auto. exists record. split; auto.
      now apply split_modules_keys.
Qed.

Lemma split_hosts_keeps_hosts_and_modules_witness :
  keys [("h1", [("m1", [("other", VInt 1);
                        ("raw", VDict [("other", VInt 1)])])])] =
    keys [("h1", VDict [("m1", VDict result_without_mitigation)])] /\
  Forall2 (fun hv hr =>
             exists record,
               snd hv = VDict record /\ keys (snd hr) = keys record)
    [("h1", VDict [("m1", VDict result_without_mitigation)])]
    [("h1", [("m1", [("other", VInt 1);
                     ("raw", VDict [("other", VInt 1)])])])].
Proof.
  apply (@split_hosts_keeps_hosts_and_modules
           [("h1", VDict [("m1", VDict result_without_mitigation)])]).
  reflexivity.
Defined.

Lemma take_mitigations_app pre : forall rest current,
  Forall (fun x => marker_or_copyable x = true) pre ->
  exists current',
    take_mitigations (pre ++ rest) current =
    take_mitigations rest current'.
Proof.
  induction pre as [|x pre IH]; intros rest current Hall; simpl.
  - now exists current.
  - inversion Hall as [|? ? Hx Hall']; subst.
    unfold marker_or_copyable in Hx.
    destruct (is_none x) eqn:En.
    + now apply IH.
    + simpl in Hx. destruct x; try discriminate; simpl; now apply IH.
Qed.

(** X13: Of several mitigations found for one module result only the last is
    kept: each value that is not None rebinds the result, so a mapping
    found after all the others replaces whatever was taken before it. *)
Theorem take_mitigations_last_wins pre mitigation post current :
  Forall (fun x => marker_or_copyable x = true) pre ->
  copyable mitigation = true ->
  Forall (fun x => is_none x = true) post ->
  take_mitigations (pre ++ mitigation :: post) current = Ok mitigation.
Proof.
  intros Hpre Hm Hpost.
  destruct (take_mitigations_app (mitigation :: post) current Hpre)
    as (current' & ->).
  simpl. destruct mitigation; try discriminate; simpl;
    now apply take_mitigations_markers.
Qed.

Lemma take_mitigations_last_wins_witness :
  take_mitigations
    ([VDict [("a", VInt 1)]; VNone] ++ VDict [("b", VInt 2)] :: [VNone])
    (VDict [("c", VInt 3)]) =
  Ok (VDict [("b", VInt 2)]).
Proof.
  apply (@take_mitigations_last_wins
           [VDict [("a", VInt 1)]; VNone] (VDict [("b", VInt 2)]) [VNone]
           (VDict [("c", VInt 3)])).
  - repeat constructor.
  - reflexivity.
  - repeat constructor.
Defined.

End SplitMore.

(** ** Module-grouped view, continued *)

Section ModulesViewMore.
Import PyDict PyDictFacts Report.

(** The host loop, read off a run that returned. *)
Lemma module_hosts_loop_exact m results :
  forall out raws hosts out' raws' hosts',
  module_hosts_loop m results (out, raws, hosts) = Ok (out', raws', hosts') ->
  (forall k, k <> m -> get k out' = get k out) /\
  hosts' = fold_left append_if_absent (hosts_containing m results) hosts /\
  raws' = update raws (raw_payloads m results).
Proof.
  induction results as [|[h0 record0] results IH];
    intros out raws hosts out' raws' hosts'; simpl.
  - intros [= <- <- <-]. auto.
  - unfold hosts_containing, raw_payloads, contains, mem. simpl.
    unfold_dict_types.
    destruct (get m record0) as [r|] eqn:Em; simpl;
      [|intros Hrun; apply IH in Hrun; exact Hrun].
    assert (Hentry : forall raws1 hosts1,
               (st' <-
                  (out'0 <-
                     match get "Entry" r with
                     | Some e =>
                         c <- CaseInsensitiveDict_of e ;;
                         Ok (set m (CaseInsensitive c) out)
                     | None => Ok out
                     end ;;
                   Ok (out'0, raws1, hosts1)) ;;
                module_hosts_loop m results st') =
               Ok (out', raws', hosts') ->
               (forall k, k <> m -> get k out' = get k out) /\
               hosts' = fold_left append_if_absent
                          (hosts_containing m results) hosts1 /\
               raws' = update raws1 (raw_payloads m results)).
    { intros raws1 hosts1.
      destruct (get "Entry" r) as [en|].
      - destruct (CaseInsensitiveDict_of en) as [ci|]; [|discriminate].
        cbn [bind]. intros Hrun. apply IH in Hrun.
        destruct Hrun as (H1 & H2 & H3). repeat split; auto.
        intros k Hk. rewrite H1 by assumption.
        apply get_set_other. congruence.
      - cbn [bind]. intros Hrun. apply IH in Hrun. exact Hrun. }
    destruct (get "raw" r) as [raw|] eqn:Eraw.
    + destruct (copy raw) as [c|] eqn:Ec; [|discriminate].
      assert (c = raw) by (destruct raw; simpl in Ec; congruence).
      subst c. cbn [bind]. intros Hrun. apply Hentry in Hrun. exact Hrun.
    + cbn [bind]. intros Hrun. apply Hentry in Hrun. exact Hrun.
Qed.

Lemma fold_append_if_absent_NoDup l : forall hosts,
  NoDup (hosts ++ l) ->
  fold_left append_if_absent l hosts = hosts ++ l.
Proof.
  induction l as [|h l IH]; intros hosts Hnd; simpl.
  - now rewrite app_nil_r.
  - unfold append_if_absent at 2.
    destruct (existsb (String.eqb h) hosts) eqn:E.
    + exfalso. apply existsb_eqb_In in E.
      apply NoDup_remove_2 in Hnd. apply Hnd. apply in_or_app. now left.
    + rewrite IH; rewrite <- app_assoc; simpl; auto.
Qed.

Lemma update_NoDup (V : Type) (l : dict V) : forall d,
  NoDup (keys (d ++ l)) -> update d l = d ++ l.
Proof.
  unfold update. induction l as [|[k v] l IH]; intros d Hnd; simpl.
  - now rewrite app_nil_r.
  - rewrite set_absent.
    + rewrite IH; rewrite <- app_assoc; simpl; auto.
    + apply get_None_iff. unfold keys in *. rewrite map_app in Hnd.
      simpl in Hnd. apply NoDup_remove_2 in Hnd. intros Hin. apply Hnd.
      apply in_or_app. now left.
Qed.

Lemma NoDup_hosts_containing m results :
  NoDup (keys results) -> NoDup (hosts_containing m results).
Proof.
  unfold hosts_containing, keys.
  induction results as [|[h record] results IH]; simpl; [constructor|].
  intros Hnd. inversion Hnd as [|? ? Hnotin Hnd']; subst.
  destruct (contains m (h, record)); simpl; auto.
  constructor; auto. intros Hin. apply Hnotin.
  apply in_map_iff in Hin. destruct Hin as (hr & <- & Hin).
  apply filter_In in Hin. apply in_map. tauto.
Qed.

Lemma In_keys_raw_payloads m results h :
  In h (keys (raw_payloads m results)) -> In h (keys results).
Proof.
  unfold raw_payloads, keys.
  induction results as [|[h0 record] results IH]; simpl; auto.
  rewrite map_app, in_app_iff. unfold_dict_types. intros [Hin|Hin]; auto.
  destruct (get m record) as [r|]; simpl in Hin; [|tauto].
  destruct (get "raw" r); simpl in Hin; tauto.
Qed.

Lemma NoDup_keys_raw_payloads m results :
  NoDup (keys results) -> NoDup (keys (raw_payloads m results)).
Proof.
  induction results as [|[h record] results IH]; simpl; [constructor|].
  intros Hnd. inversion Hnd as [|? ? Hnotin Hnd']; subst.
  unfold raw_payloads. simpl. fold (raw_payloads m results).
  unfold keys. rewrite map_app. fold (keys (raw_payloads m results)).
  unfold_dict_types.
  destruct (get m record) as [r|]; simpl; auto.
  destruct (get "raw" r); simpl; auto.
  constructor; auto. intros Hin. apply Hnotin.
  now apply In_keys_raw_payloads in Hin.
Qed.

Lemma raw_payloads_hosts m results :
  raw_payloads m results <> [] -> hosts_containing m results <> [].
Proof.
  unfold raw_payloads, hosts_containing, contains, mem.
  induction results as [|[h record] results IH]; simpl; auto.
  unfold_dict_types.
  destruct (get m record) as [r|]; simpl; [discriminate|auto].
Qed.

(** One of the two guarded writes that follow the host loop. *)
Lemma guarded_write_inv (A : Type) (l : list A) m (f : entry -> entry)
  (out1 out2 : list (string * entry)) :
  match l with
  | [] => Ok out1
  | _ :: _ => e <- getitem m out1 ;; Ok (set m (f e) out1)
  end = Ok out2 ->
  (forall k, k <> m -> get k out2 = get k out1) /\
  (l = [] -> out2 = out1) /\
  (l <> [] -> exists e, get m out1 = Some e /\ get m out2 = Some (f e)).
Proof.
  destruct l as [|x l].
  - intros [= <-]. repeat split; auto. congruence.
  - unfold getitem. destruct (get m out1) as [e|] eqn:E; [|discriminate].
    cbn [bind]. intros [= <-]. repeat split.
    + intros k Hk. apply get_set_other. congruence.
    + discriminate.
    + intros _. exists e. split; auto. apply get_set_same.
Qed.

Lemma module_step_exact results m out out' :
  module_step results m out = Ok out' ->
  NoDup (keys results) ->
  (forall k, k <> m -> get k out' = get k out) /\
  (hosts_containing m results <> [] ->
   exists e,
     get m out' = Some e /\
     entry_get "hosts" e = Some (Hosts (hosts_containing m results)) /\
     (raw_payloads m results <> [] ->
      entry_get "raw" e =
      Some (Pformat (VDict (raw_payloads m results))))).
Proof.
  unfold module_step. intros Hrun Hnd.
  set (out0 := if mem m out then out else set m (Plain []) out) in Hrun.
  assert (Hother0 : forall k, k <> m -> get k out0 = get k out).
  { intros k Hk. unfold out0. destruct (mem m out); auto.
    apply get_set_other. congruence. }
  unfold_dict_types.
  destruct (module_hosts_loop m results (out0, [], []))
    as [[[out1 raws] hosts]|] eqn:Eloop; [|discriminate].
  cbn [bind] in Hrun.
  apply module_hosts_loop_exact in Eloop.
  destruct Eloop as (Hother1 & Hhosts & Hraws).
  rewrite fold_append_if_absent_NoDup in Hhosts
    by (simpl; now apply NoDup_hosts_containing).
  rewrite update_NoDup in Hraws
    by (simpl; now apply NoDup_keys_raw_payloads).
  simpl in Hhosts, Hraws. subst hosts raws.
  match type of Hrun with
  | bind ?stage2 _ = _ => destruct stage2 as [out2|] eqn:E2; [|discriminate]
  end.
  cbn [bind] in Hrun.
  match type of Hrun with
  | bind ?stage3 _ = _ => destruct stage3 as [out3|] eqn:E3; [|discriminate]
  end.
  cbn [bind] in Hrun.
  apply guarded_write_inv in E2. destruct E2 as (Hother2 & _ & Hraw2).
  apply guarded_write_inv in E3. destruct E3 as (Hother3 & Hnil3 & Hhost3).
  unfold getitem in Hrun.
  destruct (get m out3) as [e3|] eqn:Em3; [|discriminate].
  cbn [bind] in Hrun.
  assert (Hkeys : forall k, k <> m -> get k out' = get k out).
  { intros k Hk. rewrite <- Hother0, <- Hother1, <- Hother2, <- Hother3
      by assumption.
    destruct (Nat.eqb (entry_len e3) 0).
    - unfold del in Hrun. destruct (mem m out3); [|discriminate].
      injection Hrun as <-. apply get_remove_other. congruence.
    - now injection Hrun as <-. }
  split; [exact Hkeys|].
  intros Hne. destruct (Hhost3 Hne) as (e2 & He2 & He3).
  injection He3 as ->.
  rewrite entry_len_setitem in Hrun. injection Hrun as <-.
  eexists. split; [exact Em3|]. split; [apply entry_get_setitem_same|].
  intros Hraw. destruct (Hraw2 Hraw) as (e1 & He1 & He2').
  unfold_dict_types. rewrite He2 in He2'. injection He2' as ->.
  rewrite entry_get_setitem_other by (vm_compute; discriminate).
  apply entry_get_setitem_same.
Qed.

Lemma modules_loop_exact results modules : forall out out',
  modules_loop results modules out = Ok out' ->
  NoDup (keys results) ->
  (forall m, ~ In m modules -> get m out' = get m out) /\
  (forall m, In m modules -> hosts_containing m results <> [] ->
     exists e,
       get m out' = Some e /\
       entry_get "hosts" e = Some (Hosts (hosts_containing m results)) /\
       (raw_payloads m results <> [] ->
        entry_get "raw" e =
        Some (Pformat (VDict (raw_payloads m results))))).
Proof.
  induction modules as [|m0 modules IH]; intros out out'; simpl.
  - intros [= <-] _. split; auto. intros m [].
  - destruct (module_step results m0 out) as [out1|] eqn:Estep;
      [|discriminate].
    cbn [bind]. intros Hrun Hnd.
    destruct (module_step_exact _ _ _ Estep Hnd) as (Hother & Hm0).
    destruct (IH _ _ Hrun Hnd) as (Hout & Hin).
    split.
    + intros m Hm. rewrite Hout by tauto. apply Hother. intros ->. tauto.
    + intros m Hm Hne.
      destruct (in_dec string_dec m modules) as [Hi|Hn]; [now apply Hin|].
      destruct Hm as [->|Hm]; [|contradiction].
      destruct (Hm0 Hne) as (e & He & Hspec).
      exists e. split; [now rewrite Hout|exact Hspec].
Qed.

Lemma module_step_other results m out out' :
  module_step results m out = Ok out' ->
  forall k, k <> m -> get k out' = get k out.
Proof.
  unfold module_step. intros Hrun.
  set (out0 := if mem m out then out else set m (Plain []) out) in Hrun.
  assert (Hother0 : forall k, k <> m -> get k out0 = get k out).
  { intros k Hk. unfold out0. destruct (mem m out); auto.
    apply get_set_other. congruence. }
  unfold_dict_types.
  destruct (module_hosts_loop m results (out0, [], []))
    as [[[out1 raws] hosts]|] eqn:Eloop; [|discriminate].
  cbn [bind] in Hrun.
  apply module_hosts_loop_exact in Eloop. destruct Eloop as (Hother1 & _).
  match type of Hrun with
  | bind ?stage2 _ = _ => destruct stage2 as [out2|] eqn:E2; [|discriminate]
  end.
  cbn [bind] in Hrun.
  match type of Hrun with
  | bind ?stage3 _ = _ => destruct stage3 as [out3|] eqn:E3; [|discriminate]
  end.
  cbn [bind] in Hrun.
  apply guarded_write_inv in E2. destruct E2 as (Hother2 & _).
  apply guarded_write_inv in E3. destruct E3 as (Hother3 & _).
  unfold getitem in Hrun.
  destruct (get m out3) as [e3|]; [|discriminate].
  cbn [bind] in Hrun.
  intros k Hk. rewrite <- Hother0, <- Hother1, <- Hother2, <- Hother3
    by assumption.
  destruct (Nat.eqb (entry_len e3) 0).
  - unfold del in Hrun. destruct (mem m out3); [|discriminate].
    injection Hrun as <-. apply get_remove_other. congruence.
  - now injection Hrun as <-.
Qed.

Lemma modules_loop_other results modules : forall out out',
  modules_loop results modules out = Ok out' ->
  forall m, ~ In m modules -> get m out' = get m out.
Proof.
  induction modules as [|m0 modules IH]; intros out out'; simpl.
  - now intros [= <-].
  - destruct (module_step results m0 out) as [out1|] eqn:Estep;
      [|discriminate].
    cbn [bind]. intros Hrun m Hm. rewrite (IH out1 out' Hrun) by tauto.
    apply (@module_step_other results m0 out out1 Estep). intros ->. tauto.
Qed.

(** X14: The module-grouped view has entries for requested modules only: a
    module that hosts have results for but that is not in the list handed
    to the formatter never shows up. *)
Theorem modules_view_only_requested results modules out m :
  modules_report_formatter results modules = Ok out ->
  In m (keys out) ->
  In m modules.
Proof.
  unfold modules_report_formatter. intros Hrun Hin.
  destruct (in_dec string_dec m modules) as [Hi|Hn]; auto.
  exfalso. apply mem_true_iff in Hin. unfold mem in Hin.
  now rewrite (@modules_loop_other results modules [] out Hrun m Hn) in Hin.
Qed.

Lemma modules_view_only_requested_witness : In "m" ["m"].
Proof.
  apply (@modules_view_only_requested two_entries ["m"]
           [("m", CaseInsensitive
                    [("b", ("b", Finding (VInt 2)));
                     ("hosts", ("hosts", Hosts ["h1"; "h2"]))])] "m").
  - reflexivity.
  - simpl. auto.
Defined.

(** X15: The "hosts" field of a module's entry lists exactly the hosts whose
    record has the module, each once, in the iteration order of the
    tree. *)
Theorem modules_view_hosts_in_order results modules out m :
  modules_report_formatter results modules = Ok out ->
  NoDup (keys results) ->
  In m modules ->
  hosts_containing m results <> [] ->
  exists e,
    get m out = Some e /\
    entry_get "hosts" e = Some (Hosts (hosts_containing m results)).
Proof.
  unfold modules_report_formatter. intros Hrun Hnd Hm Hne.
  destruct (@modules_loop_exact results modules [] out Hrun Hnd)
    as (_ & Hin).
  destruct (Hin m Hm Hne) as (e & He & Hhosts & _). eauto.
Qed.

Lemma modules_view_hosts_in_order_witness :
  exists e,
    get "m" [("m", CaseInsensitive
                     [("b", ("b", Finding (VInt 2)));
                      ("hosts", ("hosts", Hosts ["h1"; "h2"]))])] = Some e /\
    entry_get "hosts" e = Some (Hosts (hosts_containing "m" two_entries)).
Proof.
  apply (@modules_view_hosts_in_order two_entries ["m"]
           [("m", CaseInsensitive
                    [("b", ("b", Finding (VInt 2)));
                     ("hosts", ("hosts", Hosts ["h1"; "h2"]))])] "m").
  - reflexivity.
  - repeat constructor; simpl; intuition discriminate.
  - simpl. auto.
  - discriminate.
Defined.

(** X16: The "raw" field of a module's entry is the text of one mapping that
    holds, host by host in iteration order, the "raw" payload of every host
    that has one for the module; hosts without a "raw" key are left out of
    it. *)
Theorem modules_view_raw_per_host results modules out m :
  modules_report_formatter results modules = Ok out ->
  NoDup (keys results) ->
  In m modules ->
  raw_payloads m results <> [] ->
  exists e,
    get m out = Some e /\
    entry_get "raw" e = Some (Pformat (VDict (raw_payloads m results))).
Proof.
  unfold modules_report_formatter. intros Hrun Hnd Hm Hne.
  destruct (@modules_loop_exact results modules [] out Hrun Hnd)
    as (_ & Hin).
  destruct (Hin m Hm (@raw_payloads_hosts m results Hne))
    as (e & He & _ & Hraw).
  eauto.
Qed.

Lemma modules_view_raw_per_host_witness :
  exists e,
    get "m1" [("m1", CaseInsensitive
                       [("name", ("Name", Finding (VStr "n")));
                        ("raw", ("raw",
                                 Pformat
                                   (VDict
                                      [("h1", VDict [("banner", VStr "x")]);
                                       ("h2", VDict [("banner", VStr "y")])])));
                        ("hosts", ("hosts", Hosts ["h1"; "h2"]))])] =
      Some e /\
    entry_get "raw" e =
      Some (Pformat (VDict (raw_payloads "m1" raw_only_and_entry))).
Proof.
  apply (@modules_view_raw_per_host raw_only_and_entry ["m1"] _ "m1").
  - reflexivity.
  - repeat constructor; simpl; intuition discriminate.
  - simpl. auto.
  - discriminate.
Defined.

End ModulesViewMore.

(** ** Host-grouped view, continued *)

Section HostsViewMore.
Import PyDict PyDictFacts Report.

Lemma host_module_step_inv m r e e1 :
  host_module_step m r e = Ok e1 ->
  match get "Entry" r with
  | Some en =>
      exists c,
        CaseInsensitiveDict_of en = Ok c /\
        e1 = set m (if truthy (raw_or_empty r)
                    then CaseInsensitiveDict.setitem "raw"
                           (Pformat (raw_or_empty r)) c
                    else c) e
  | None => e1 = e
  end.
Proof.
  unfold host_module_step, raw_or_empty.
  destruct (get "raw" r) as [raw|].
  - destruct (copy raw) as [c|] eqn:Ec; [|discriminate].
    assert (c = raw) by (destruct raw; simpl in Ec; congruence). subst c.
    cbn [bind]. destruct (get "Entry" r) as [en|]; [|now intros [= <-]].
    destruct (CaseInsensitiveDict_of en) as [c|]; [|discriminate].
    cbn [bind]. intros [= <-]. eauto.
  - cbn [bind]. destruct (get "Entry" r) as [en|]; [|now intros [= <-]].
    destruct (CaseInsensitiveDict_of en) as [c|]; [|discriminate].
    cbn [bind]. intros [= <-]. eauto.
Qed.

Lemma host_modules_loop_exact record : forall e e',
  host_modules_loop record e = Ok e' ->
  NoDup (keys record) ->
  (forall m, ~ In m (keys record) -> get m e' = get m e) /\
  (forall m r, In (m, r) record ->
     match get "Entry" r with
     | Some en =>
         exists c,
           CaseInsensitiveDict_of en = Ok c /\
           get m e' =
           Some (if truthy (raw_or_empty r)
                 then CaseInsensitiveDict.setitem "raw"
                        (Pformat (raw_or_empty r)) c
                 else c)
     | None => get m e' = get m e
     end).
Proof.
  induction record as [|[m0 r0] record IH]; intros e e'; simpl.
  - intros [= <-] _. split; auto. intros m r [].
  - destruct (host_module_step m0 r0 e) as [e1|] eqn:Estep; [|discriminate].
    cbn [bind]. intros Hrun Hnd.
    inversion Hnd as [|? ? Hnotin Hnd']; subst.
    destruct (IH _ _ Hrun Hnd') as (Hother & Hin).
    apply host_module_step_inv in Estep.
    assert (He1 : forall m, m <> m0 -> get m e1 = get m e).
    { intros m Hm. destruct (get "Entry" r0) as [en|]; [|now subst].
      destruct Estep as (c & _ & ->). apply get_set_other. congruence. }
    split.
    + intros m Hm. rewrite Hother by tauto. apply He1. intros ->. tauto.
    + intros m r [[= -> ->]|Hmr].
      * rewrite (Hother m Hnotin).
        destruct (get "Entry" r) as [en|]; [|now subst].
        destruct Estep as (c & Hc & ->). exists c. split; auto.
        apply get_set_same.
      * specialize (Hin m r Hmr).
        destruct (get "Entry" r) as [en|]; auto.
        rewrite Hin. apply He1. intros ->. apply Hnotin.
        change m0 with (fst (m0, r)). now apply in_map.
Qed.

(** X17: In the host-grouped view a module that has an "Entry" mapping with
    ASCII key names is shown with the case-insensitive dictionary of that
    mapping; the "raw" text is attached only when the module's "raw" payload
    is non-empty, so a missing or empty payload is not rendered. *)
Theorem hosts_view_entry results h record m r d :
  renderable results = true ->
  NoDup (keys results) ->
  In (h, record) results ->
  NoDup (keys record) ->
  In (m, r) record ->
  get "Entry" r = Some (VDict d) ->
  ascii_keys d = true ->
  exists out e,
    hosts_report_formatter results = Ok out /\
    get h out = Some e /\
    get m e =
    Some (if truthy (raw_or_empty r)
          then CaseInsensitiveDict.setitem "raw" (Pformat (raw_or_empty r))
                 (CaseInsensitiveDict.of_dict
                    (map (fun kv => (fst kv, Finding (snd kv))) d))
          else CaseInsensitiveDict.of_dict
                 (map (fun kv => (fst kv, Finding (snd kv))) d)).
Proof.
  intros Hok Hnd Hin Hndr Hmr Hentry _. unfold hosts_report_formatter.
  destruct (hosts_loop_spec results [] Hok Hnd)
    as (out & Hrun & _ & _ & Hall); [reflexivity|].
  destruct (Hall h record Hin) as (e & Hget & He).
  exists out, e. split; [exact Hrun|]. split; [exact Hget|].
  destruct (host_modules_loop_exact _ _ He Hndr) as (_ & Hmods).
  specialize (Hmods m r Hmr). unfold_dict_types.
  rewrite Hentry in Hmods. destruct Hmods as (c & Hc & Hm).
  simpl in Hc. injection Hc as <-. exact Hm.
Qed.

Lemma hosts_view_entry_witness :
  exists out e,
    hosts_report_formatter
      [("h1", [("m1", [("Entry", VDict [("Name", VStr "n")]);
                       ("raw", VDict [])])])] = Ok out /\
    get "h1" out = Some e /\
    get "m1" e = Some [("name", ("Name", Finding (VStr "n")))].
Proof.
  apply (@hosts_view_entry
           [("h1", [("m1", [("Entry", VDict [("Name", VStr "n")]);
                            ("raw", VDict [])])])]
           "h1"
           [("m1", [("Entry", VDict [("Name", VStr "n")]);
                    ("raw", VDict [])])]
           "m1"
           [("Entry", VDict [("Name", VStr "n")]); ("raw", VDict [])]
           [("Name", VStr "n")]).
  - reflexivity.
  - repeat constructor; simpl; tauto.
  - simpl. auto.
  - repeat constructor; simpl; tauto.
  - simpl. auto.
  - reflexivity.
  - reflexivity.
Defined.

End HostsViewMore.

(** ** The pipeline of [run] *)

Section Pipeline.
Import PyDict PyDictFacts Report.

Lemma flatten_host_removes cid v modules v' modules' :
  flatten_host cid v modules = Ok (v', modules') ->
  exists record, v' = VDict record /\ get cid record = None.
Proof.
  unfold flatten_host. destruct (as_dict v) as [record|]; [|discriminate].
  cbn [bind].
  match goal with
  | |- bind ?inner _ = _ -> _ =>
      destruct inner as [[record1 modules1]|]; [|discriminate]
  end.
  cbn [bind]. unfold del. destruct (mem cid record1); [|discriminate].
  cbn [bind]. intros [= <- _]. eexists. split; [reflexivity|].
  apply get_remove_same.
Qed.

Lemma flatten_hosts_removes cid results : forall modules results' modules',
  flatten_hosts cid results modules = Ok (results', modules') ->
  Forall (fun hv => exists record,
                      snd hv = VDict record /\ get cid record = None)
    results'.
Proof.
  induction results as [|[h v] results IH]; intros modules results' modules';
    simpl.
  - intros [= <- _]. constructor.
  - destruct (flatten_host cid v modules) as [[v' m1]|] eqn:Eh;
      [|discriminate].
    cbn [bind].
    destruct (flatten_hosts cid results m1) as [[rest' m2]|] eqn:E;
      [|discriminate].
    cbn [bind]. intros [= <- _]. constructor.
    + simpl. eapply flatten_host_removes; eauto.
    + eapply IH; eauto.
Qed.

Lemma flatten_compliance_removes cid results modules results' modules' :
  selected_compliance_module modules = Some cid ->
  flatten_compliance results modules = Ok (results', modules') ->
  get cid modules' = None /\
  Forall (fun hv => exists record,
                      snd hv = VDict record /\ get cid record = None)
    results'.
Proof.
  intros Hsel.
  destruct (@flatten_compliance_selected cid results modules Hsel)
    as [_ ->].
  destruct (flatten_hosts cid results modules) as [[r1 m1]|] eqn:E;
    [|discriminate].
  cbn [bind]. unfold del. destruct (mem cid m1); [|discriminate].
  cbn [bind]. intros [= <- <-]. split; [apply get_remove_same|].
  eapply flatten_hosts_removes; eauto.
Qed.

Lemma split_hosts_inv results : forall tree h record',
  split_hosts results = Ok tree ->
  In (h, record') tree ->
  exists record,
    In (h, VDict record) results /\ keys record' = keys record.
Proof.
  induction results as [|[h0 v0] results IH]; intros tree h record'; simpl.
  - intros [= <-] [].
  - destruct v0 as [| | | | |record0]; try discriminate.
    cbn [as_dict bind].
    destruct (split_modules record0) as [record0'|] eqn:E0; [|discriminate].
    cbn [bind]. destruct (split_hosts results) as [rest'|]; [|discriminate].
    cbn [bind]. intros [= <-] [[= <- <-]|Hin].
    + exists record0. split; [now left|]. now apply split_modules_keys.
    + destruct (IH _ _ _ eq_refl Hin) as (record & H1 & H2).
      exists record. split; [now right|exact H2].
Qed.

(** X18: Once the catalogue names a compliance module, that module itself is
    never reported: after the preparation done by [run] it is neither in
    the catalogue nor in any host record, and the module-grouped view has
    no entry for it. *)
Theorem compliance_module_never_reported input res cat cid :
  extract_results input = (res, Ok cat) ->
  selected_compliance_module cat = Some cid ->
  (forall results modules,
     prepare input = Ok (results, modules) ->
     get cid modules = None /\
     forall h record, In (h, record) results -> get cid record = None) /\
  (forall out, run MODULES input = Ok (ModulesView out) ->
               get cid out = None).
Proof.
  intros Hex Hsel.
  assert (Hprep : forall results modules,
             prepare input = Ok (results, modules) ->
             get cid modules = None /\
             forall h record, In (h, record) results ->
                              get cid record = None).
  { intros results modules. unfold prepare. rewrite Hex. cbn [bind].
    destruct (as_dict (pruner (VDict res))) as [pruned|]; [|discriminate].
    cbn [bind].
    destruct (flatten_compliance pruned cat) as [[r1 m1]|] eqn:Ef;
      [|discriminate].
    cbn [bind]. destruct (split_hosts r1) as [tree|] eqn:Es; [|discriminate].
    cbn [bind]. intros [= <- <-].
    destruct (@flatten_compliance_removes cid pruned cat r1 m1 Hsel Ef)
      as [Hcat Hrec].
    split; [exact Hcat|]. intros h record' Hin.
    destruct (@split_hosts_inv r1 tree h record' Es Hin)
      as (record & Hin1 & Hkeys).
    rewrite Forall_forall in Hrec.
    destruct (Hrec _ Hin1) as (record1 & Heq & Hnone). simpl in Heq.
    injection Heq as <-. apply get_None_iff. unfold_dict_types.
    rewrite Hkeys. now apply get_None_iff. }
  split; [exact Hprep|].
  intros out. unfold run.
  destruct (prepare input) as [[results modules]|] eqn:Ep; [|discriminate].
  cbn [bind].
  destruct (modules_report_formatter results (keys modules)) as [out0|] eqn:Ev;
    [|discriminate].
  cbn [bind]. intros [= <-].
  destruct (Hprep results modules eq_refl) as [Hcat _].
  unfold modules_report_formatter in Ev.
  rewrite (@modules_loop_other results (keys modules) [] out0 Ev cid);
    [reflexivity|].
  now apply get_None_iff.
Qed.

Lemma compliance_module_never_reported_witness :
  prepare compare_one_input =
    Ok ([("h1", [("compare_one_s1", [("x", VInt 1); ("raw", VDict [])])])],
        [("compare_one_s1", VStr "")]) /\
  run MODULES compare_one_input =
    Ok (ModulesView
          [("compare_one_s1",
            Plain [("raw", Pformat (VDict [("h1", VDict [])]));
                   ("hosts", Hosts ["h1"])])]) /\
  get "compare_one" [("compare_one_s1", VStr "")] = None /\
  (forall h record,
     In (h, record)
       [("h1", [("compare_one_s1", [("x", VInt 1); ("raw", VDict [])])])] ->
     get "compare_one" record = None) /\
  get "compare_one"
    [("compare_one_s1",
      Plain [("raw", Pformat (VDict [("h1", VDict [])]));
             ("hosts", Hosts ["h1"])])] = None.
Proof.
  destruct (@compliance_module_never_reported compare_one_input
              [("h1", VDict [("compare_one", VDict compare_one_sheets)])]
              [("compare_one", VDict [])] "compare_one"
              eq_refl eq_refl) as [Hprepare Hview].
  split; [reflexivity|]. split; [reflexivity|].
  destruct (Hprepare _ _ eq_refl) as [Hcat Hrec].
  split; [exact Hcat|]. split; [exact Hrec|].
  exact (Hview _ eq_refl).
Defined.

(** X19: Every module of the module-grouped view that [run] renders is listed
    in the catalogue that [run] hands to the template. *)
Theorem run_modules_view_within_catalogue input out :
  run MODULES input = Ok (ModulesView out) ->
  exists results modules,
    prepare input = Ok (results, modules) /\
    forall m, In m (keys out) -> In m (keys modules).
Proof.
  unfold run.
  destruct (prepare input) as [[results modules]|] eqn:Ep; [|discriminate].
  cbn [bind].
  destruct (modules_report_formatter results (keys modules)) as [out0|] eqn:Ev;
    [|discriminate].
  cbn [bind]. intros [= <-]. exists results, modules. split; auto.
  intros m Hin.
  destruct (in_dec string_dec m (keys modules)) as [Hi|Hn]; auto.
  exfalso. apply mem_true_iff in Hin. unfold mem in Hin.
  unfold modules_report_formatter in Ev.
  now rewrite (@modules_loop_other results (keys modules) [] out0 Ev m Hn)
    in Hin.
Qed.

Lemma run_modules_view_within_catalogue_witness :
  exists results modules,
    prepare scenario_input = Ok (results, modules) /\
    forall m,
      In m (keys [("m1",
                   Plain [("raw",
                           Pformat (VDict [("h1",
                                            VDict [("other", VInt 1)])]));
                          ("hosts", Hosts ["h1"])])]) ->
      In m (keys modules).
Proof.
  apply (@run_modules_view_within_catalogue scenario_input).
  reflexivity.
Defined.

End Pipeline.

(** ** Compliance flattening on a result that is no mapping *)

Section FlatteningScalar.
Import PyDict PyDictFacts Report.

Lemma flatten_hosts_scalar cid pre h record x post : forall modules,
  Forall (fun hv => has_sheets cid (snd hv)) pre ->
  get cid record = Some x ->
  scalar x = true ->
  truthy x = true ->
  flatten_hosts cid (pre ++ (h, VDict record) :: post) modules =
  Raise TypeError.
Proof.
  induction pre as [|[h0 v0] pre IH]; intros modules Hall Hget Hs Ht; simpl.
  - unfold flatten_host. simpl. rewrite Hget, Ht.
    destruct x; try discriminate; reflexivity.
  - inversion Hall as [|? ? Hv Hall']; subst. simpl in Hv.
    destruct Hv as (record0 & sheets & -> & Hget0 & _ & Hmap).
    rewrite (@flatten_host_spec cid record0 sheets modules Hget0 Hmap).
    cbn [bind]. now rewrite IH.
Qed.

(** X10: A host whose value under the selected compliance module is a non-empty
    string, a non-zero number or True (an error text in place of the
    sheets, say) makes the flattening raise TypeError: the value passes the
    truthiness guard and is then used as a mapping of sheets. *)
Theorem flatten_compliance_scalar_raises cid pre h record x post modules :
  selected_compliance_module modules = Some cid ->
  Forall (fun hv => has_sheets cid (snd hv)) pre ->
  get cid record = Some x ->
  scalar x = true ->
  truthy x = true ->
  flatten_compliance (pre ++ (h, VDict record) :: post) modules =
  Raise TypeError.
Proof.
  intros Hsel Hall Hget Hs Ht.
  destruct (@flatten_compliance_selected cid
              (pre ++ (h, VDict record) :: post) modules Hsel) as [_ ->].
  now rewrite (@flatten_hosts_scalar cid pre h record x post modules).
Qed.

Lemma flatten_compliance_scalar_raises_witness :
  flatten_compliance
    [("h1", VDict [("compare_many", VStr "scan failed")])]
    [("compare_many", VStr "")] =
  Raise TypeError.
Proof.
  apply (@flatten_compliance_scalar_raises "compare_many" [] "h1"
           [("compare_many", VStr "scan failed")] (VStr "scan failed") []
           [("compare_many", VStr "")]).
  - reflexivity.
  - constructor.
  - reflexivity.
  - reflexivity.
  - reflexivity.
Defined.

End FlatteningScalar.

(** ** Content of the module-grouped view that [run] renders *)

Section ViewContent.
Import PyDict PyDictFacts Report.












End ViewContent.

(** ** Case-insensitive entries of the module-grouped view *)

Section CaseInsensitiveEntries.
Import PyDict PyDictFacts Report.

Lemma Forall_set (V : Type) (P : string * V -> Prop) k v (d : dict V) :
  P (k, v) -> Forall P d -> Forall P (set k v d).
Proof.
  intros Hkv Hd. induction Hd as [|[k' v'] d Hx Hd IH]; simpl.
  - constructor; auto.
  - destruct (String.eqb k k') eqn:E.
    + apply String.eqb_eq in E. subst k'. constructor; auto.
    + constructor; auto.
Qed.

Lemma Forall_remove (V : Type) (P : string * V -> Prop) k (d : dict V) :
  Forall P d -> Forall P (remove k d).
Proof.
  intros Hd. induction Hd as [|[k' v'] d Hx Hd IH]; simpl; auto.
  destruct (String.eqb k k'); auto.
Qed.

Lemma stored_under_lowered_setitem (V : Type) k (v : V) s :
  stored_under_lowered s ->
  stored_under_lowered (CaseInsensitiveDict.setitem k v s).
Proof. intros Hs. now apply Forall_set. Qed.

Lemma stored_under_lowered_of_dict (V : Type) (data : dict V) :
  stored_under_lowered (CaseInsensitiveDict.of_dict data).
Proof.
  unfold CaseInsensitiveDict.of_dict.
  enough (H : forall s : cidict V,
             stored_under_lowered s ->
             stored_under_lowered
               (fold_left
                  (fun s kv => CaseInsensitiveDict.setitem (fst kv)
                                 (snd kv) s) data s))
    by (apply H; constructor).
  induction data as [|[k v] data IH]; intros s Hs; simpl; auto.
  apply IH. now apply stored_under_lowered_setitem.
Qed.

Lemma CaseInsensitiveDict_of_stored e c :
  CaseInsensitiveDict_of e = Ok c -> stored_under_lowered c.
Proof.
  destruct e; simpl; try discriminate; intros [= <-].
  - constructor.
  - apply stored_under_lowered_of_dict.
Qed.

Lemma entry_setitem_stored k f e :
  entry_stored_under_lowered e ->
  entry_stored_under_lowered (entry_setitem k f e).
Proof.
  destruct e; simpl; auto. apply stored_under_lowered_setitem.
Qed.

Lemma view_get_stored m (out : dict entry) e :
  view_stored_under_lowered out -> get m out = Some e ->
  entry_stored_under_lowered e.
Proof.
  unfold view_stored_under_lowered. rewrite Forall_forall.
  intros Hall Hget. apply (Hall (m, e)). now apply get_Some_In.
Qed.

Lemma module_hosts_loop_stored m results :
  forall out raws hosts out' raws' hosts',
  module_hosts_loop m results (out, raws, hosts) = Ok (out', raws', hosts') ->
  view_stored_under_lowered out -> view_stored_under_lowered out'.
Proof.
  induction results as [|[h0 record0] results IH];
    intros out raws hosts out' raws' hosts'; simpl.
  - now intros [= <- _ _].
  - unfold_dict_types.
    destruct (get m record0) as [r|]; simpl; [|now apply IH].
    assert (Hentry : forall raws1 hosts1,
               (st' <-
                  (out'0 <-
                     match get "Entry" r with
                     | Some e =>
                         c <- CaseInsensitiveDict_of e ;;
                         Ok (set m (CaseInsensitive c) out)
                     | None => Ok out
                     end ;;
                   Ok (out'0, raws1, hosts1)) ;;
                module_hosts_loop m results st') =
               Ok (out', raws', hosts') ->
               view_stored_under_lowered out ->
               view_stored_under_lowered out').
    { intros raws1 hosts1.
      destruct (get "Entry" r) as [en|].
      - destruct (CaseInsensitiveDict_of en) as [c|] eqn:Ec; [|discriminate].
        cbn [bind]. intros Hrun Hout. apply IH in Hrun; auto.
        apply Forall_set; auto. simpl.
        eapply CaseInsensitiveDict_of_stored; eauto.
      - cbn [bind]. now apply IH. }
    destruct (get "raw" r) as [raw|].
    + destruct (copy raw) as [c|]; [|discriminate].
      cbn [bind]. apply Hentry.
    + cbn [bind]. apply Hentry.
Qed.

Lemma guarded_write_stored (A : Type) (l : list A) m (f : entry -> entry)
  (out1 out2 : list (string * entry)) :
  match l with
  | [] => Ok out1
  | _ :: _ => e <- getitem m out1 ;; Ok (set m (f e) out1)
  end = Ok out2 ->
  (forall e, entry_stored_under_lowered e ->
             entry_stored_under_lowered (f e)) ->
  view_stored_under_lowered out1 -> view_stored_under_lowered out2.
Proof.
  destruct l as [|x l].
  - now intros [= <-].
  - unfold getitem. destruct (get m out1) as [e|] eqn:E; [|discriminate].
    cbn [bind]. intros [= <-] Hf Hout. apply Forall_set; auto. simpl.
    apply Hf. eapply view_get_stored; eauto.
Qed.

Lemma module_step_stored results m out out' :
  module_step results m out = Ok out' ->
  view_stored_under_lowered out -> view_stored_under_lowered out'.
Proof.
  unfold module_step. intros Hrun Hout.
  set (out0 := if mem m out then out else set m (Plain []) out) in Hrun.
  assert (Hout0 : view_stored_under_lowered out0).
  { unfold out0. destruct (mem m out); auto.
    apply Forall_set; simpl; auto. }
  unfold_dict_types.
  destruct (module_hosts_loop m results (out0, [], []))
    as [[[out1 raws] hosts]|] eqn:Eloop; [|discriminate].
  cbn [bind] in Hrun.
  apply module_hosts_loop_stored in Eloop; auto.
  match type of Hrun with
  | bind ?stage2 _ = _ => destruct stage2 as [out2|] eqn:E2; [|discriminate]
  end.
  cbn [bind] in Hrun.
  match type of Hrun with
  | bind ?stage3 _ = _ => destruct stage3 as [out3|] eqn:E3; [|discriminate]
  end.
  cbn [bind] in Hrun.
  apply guarded_write_stored in E2;
    [|intros e; apply entry_setitem_stored|assumption].
  apply guarded_write_stored in E3;
    [|intros e; apply entry_setitem_stored|assumption].
  unfold getitem in Hrun. destruct (get m out3) as [e3|]; [|discriminate].
  cbn [bind] in Hrun. destruct (Nat.eqb (entry_len e3) 0).
  - unfold del in Hrun. destruct (mem m out3); [|discriminate].
    injection Hrun as <-. now apply Forall_remove.
  - now injection Hrun as <-.
Qed.

Lemma modules_loop_stored results modules : forall out out',
  modules_loop results modules out = Ok out' ->
  view_stored_under_lowered out -> view_stored_under_lowered out'.
Proof.
  induction modules as [|m0 modules IH]; intros out out'; simpl.
  - now intros [= <-].
  - destruct (module_step results m0 out) as [out1|] eqn:Estep;
      [|discriminate].
    cbn [bind]. intros Hrun Hout. apply (IH out1 out' Hrun).
    now apply (@module_step_stored results m0 out out1).
Qed.

Lemma stored_case_distinct (V : Type) (s : cidict V) :
  stored_under_lowered s -> NoDup (keys s) -> case_distinct s.
Proof.
  intros Hs Hnd [k1 f1] [k2 f2] H1 H2 Hlower.
  unfold stored_under_lowered in Hs. rewrite Forall_forall in Hs.
  pose proof (Hs _ H1) as E1. pose proof (Hs _ H2) as E2. simpl in *.
  assert (k1 = k2) by congruence. subst k2.
  apply (In_get_NoDup _ _ _ Hnd) in H1.
  apply (In_get_NoDup _ _ _ Hnd) in H2. congruence.
Qed.

(** C5, as stated, fails: with two hosts whose mitigations carry different
    "Entry" fields, the field of the first host is not in the entry that
    [run] renders for the module. *)
Lemma C5_earlier_field_lost :
  ~ (exists out e,
        run MODULES two_entries_input = Ok (ModulesView out) /\
        get "m" out = Some e /\
        entry_get "a" e = Some (Finding (VInt 1))).
Proof.
  intros (out & e & Hrun & Hget & Ha). vm_compute in Hrun.
  injection Hrun as <-. vm_compute in Hget. injection Hget as <-.
  discriminate Ha.
Qed.

(** C5, amended: the aggregate entry of a module is not merged across
    hosts but replaced: its finding fields are those of the "Entry" mapping
    of the last host, in iteration order, that has one for the module, so a
    field contributed only by an earlier host does not survive.  For an
    "Entry" with ASCII key names the entry is case-insensitive: no two of
    its fields have names that differ only in case, and looking a name up
    in any letter case gives the value written last under that name up to
    case. *)
Theorem C5_last_entry_replaces results modules m pre h record post r d :
  renderable results = true ->
  In m modules ->
  results = pre ++ (h, record) :: post ->
  get m record = Some r ->
  get "Entry" r = Some (VDict d) ->
  ascii_keys d = true ->
  (forall h' record' r', In (h', record') post -> get m record' = Some r' ->
                         get "Entry" r' = None) ->
  exists out s,
    modules_report_formatter results modules = Ok out /\
    get m out = Some (CaseInsensitive s) /\
    case_distinct s /\
    forall k,
      ascii_string k = true ->
      CaseInsensitiveDict.lower k <> "raw" ->
      CaseInsensitiveDict.lower k <> "hosts" ->
      CaseInsensitiveDict.get k s = option_map Finding (last_ci k d).
Proof.
  intros Hok Hm Hres Hr He _ Hpost. subst results.
  unfold modules_report_formatter.
  destruct (modules_loop_spec _ modules [] Hok)
    as (out & Hrun & _ & Hin & _).
  destruct (Hin m Hm) as (e & Hget & hs & _ & _ & _ & _ & Hentry).
  { exists h, record. split.
    - apply in_or_app. right. now left.
    - unfold mem. now rewrite Hr. }
  pose proof (last_entry_decompose m pre h record post Hr He Hpost) as Hlast.
  destruct (Hentry _ Hlast) as (s & -> & Hnd & Hfields).
  exists out, s. split; [exact Hrun|]. split; [exact Hget|]. split.
  - apply stored_case_distinct; auto.
    apply (@view_get_stored m out (CaseInsensitive s)); auto.
    apply (@modules_loop_stored _ modules [] out Hrun). constructor.
  - intros k _ Hk1 Hk2. rewrite (Hfields k Hk1 Hk2).
    now rewrite get_of_dict, last_ci_map.
Qed.

Lemma C5_last_entry_replaces_witness :
  exists out s,
    modules_report_formatter two_entries_split ["m"] = Ok out /\
    get "m" out = Some (CaseInsensitive s) /\
    case_distinct s /\
    forall k,
      ascii_string k = true ->
      CaseInsensitiveDict.lower k <> "raw" ->
      CaseInsensitiveDict.lower k <> "hosts" ->
      CaseInsensitiveDict.get k s =
      option_map Finding (last_ci k [("Foo", VInt 2); ("foo", VInt 3)]).
Proof.
  apply (@C5_last_entry_replaces two_entries_split ["m"] "m"
           [("h1", [("m", [("Entry", VDict [("a", VInt 1)]);
                           ("raw", VDict [("banner", VStr "x")])])])]
           "h2"
           [("m", [("Entry", VDict [("Foo", VInt 2); ("foo", VInt 3)]);
                   ("raw", VDict [("banner", VStr "y")])])]
           []
           [("Entry", VDict [("Foo", VInt 2); ("foo", VInt 3)]);
            ("raw", VDict [("banner", VStr "y")])]
           [("Foo", VInt 2); ("foo", VInt 3)]).
  - reflexivity.
  - simpl. auto.
  - reflexivity.
  - reflexivity.
  - reflexivity.
  - reflexivity.
  - simpl. tauto.
Defined.

End CaseInsensitiveEntries.
